(** * Picnic-Day-Scrapers: link-tree crawler and broken-link scanner

    Shallow embedding of the two programs of the repository,

      - [[STABLE]WBSLSCv4.py]            (module [WBSLSCv4], the link-tree crawler),
      - [[STABLE]brokenScraperV2.96.5.py] (module [brokenScraper], the link-health scanner),

    and the properties of the specification that are settled against them.

    Python [str] is modelled by [string], one character for one code point;
    the characters of the model are the code points below 256, so text with
    other characters is outside the model.  Python [int] is modelled by [Z], a
    Python [set] of strings by [gset string], the attribute dictionary of a
    tag by [gmap string string].  The pieces of the Python standard library the
    programs call are modelled in [PyStr], [UrlParse] and [Re]; what the
    programs get from BeautifulSoup, [html.unescape], the file system and the
    network is an explicit parameter ([PyLib], [World]). *)

From Stdlib Require Import ZArith String Ascii List Bool Lia.
From stdpp Require Import base option list gmap sets strings sorting pretty.

Set Warnings "-register-all,-clear-no-such-hyp".

Open Scope string_scope.
Open Scope Z_scope.
Open Scope list_scope.

(** ** Python string operations *)

Module PyStr.

Definition code (c : ascii) : nat := nat_of_ascii c.

Definition in_range (lo hi : nat) (c : ascii) : bool :=
  (Nat.leb lo (code c) && Nat.leb (code c) hi)%bool.

Definition is_upper (c : ascii) : bool := in_range 65 90 c.
Definition is_lower (c : ascii) : bool := in_range 97 122 c.
Definition is_alpha (c : ascii) : bool := (is_upper c || is_lower c)%bool.
Definition is_digit (c : ascii) : bool := in_range 48 57 c.

(** [str.isspace] on the code points below 256: TAB, LF, VT, FF, CR, FS, GS,
    RS, US, the space, NEL (133) and the no-break space (160).  The same
    characters are the ones [\s] matches and [str.strip()] removes. *)
Definition is_space (c : ascii) : bool :=
  (in_range 9 13 c || in_range 28 32 c
   || Nat.eqb (code c) 133 || Nat.eqb (code c) 160)%bool.

(** [str.lower()] on one code point below 256: the letters A to Z and the
    capital letters from 192 to 222, without the multiplication sign 215. *)
Definition lower_char (c : ascii) : ascii :=
  if (is_upper c || in_range 192 214 c || in_range 216 222 c)%bool
  then ascii_of_nat (code c + 32) else c.

(** [s.lower()] *)
Fixpoint lower (s : string) : string :=
  match s with
  | EmptyString => EmptyString
  | String c s' => String (lower_char c) (lower s')
  end.

(** [s.startswith(p)] *)
Definition startswith (s p : string) : bool := String.prefix p s.

(** [bool(s)] *)
Definition truthy (s : string) : bool :=
  match s with EmptyString => false | String _ _ => true end.

(** [c in s] *)
Fixpoint contains (c : ascii) (s : string) : bool :=
  match s with
  | EmptyString => false
  | String d s' => (Ascii.eqb c d || contains c s')%bool
  end.

(** Split [s] before the first character satisfying [p]: the second
    component is empty or starts with that character. *)
Fixpoint break (p : ascii -> bool) (s : string) : string * string :=
  match s with
  | EmptyString => (EmptyString, EmptyString)
  | String c s' =>
      if p c then (EmptyString, s)
      else let '(a, b) := break p s' in (String c a, b)
  end.

(** [s.lstrip(chars)] with the character set given as a predicate. *)
Fixpoint lstrip_by (p : ascii -> bool) (s : string) : string :=
  match s with
  | EmptyString => EmptyString
  | String c s' => if p c then lstrip_by p s' else s
  end.

Fixpoint rev_string (acc s : string) : string :=
  match s with
  | EmptyString => acc
  | String c s' => rev_string (String c acc) s'
  end.

Definition rstrip_by (p : ascii -> bool) (s : string) : string :=
  rev_string EmptyString (lstrip_by p (rev_string EmptyString s)).

Definition strip_by (p : ascii -> bool) (s : string) : string :=
  rstrip_by p (lstrip_by p s).

(** [s.strip()] *)
Definition strip (s : string) : string := strip_by is_space s.

(** The apostrophe (39) and the double quote (34). *)
Definition is_quote (c : ascii) : bool :=
  (Ascii.eqb c "039" || Ascii.eqb c "034")%bool.

(** [s.strip(q)] where [q] holds the two quote characters. *)
Definition strip_quotes (s : string) : string := strip_by is_quote s.

(** [s.replace(c, "")] for a set of single characters. *)
Fixpoint remove_chars (p : ascii -> bool) (s : string) : string :=
  match s with
  | EmptyString => EmptyString
  | String c s' => if p c then remove_chars p s' else String c (remove_chars p s')
  end.

(** [s.split(sep)] for a one-character separator. *)
Fixpoint split (sep : ascii) (s : string) : list string :=
  match s with
  | EmptyString => [EmptyString]
  | String c s' =>
      if Ascii.eqb c sep then EmptyString :: split sep s'
      else match split sep s' with
           | [] => [String c EmptyString]
           | x :: xs => String c x :: xs
           end
  end.

(** [sep.join(l)] *)
Fixpoint join (sep : string) (l : list string) : string :=
  match l with
  | [] => EmptyString
  | [x] => x
  | x :: xs => x +:+ sep +:+ join sep xs
  end.

(** [s[n:]] *)
Fixpoint drop_str (n : nat) (s : string) : string :=
  match n, s with
  | O, _ => s
  | S n', String _ s' => drop_str n' s'
  | S _, EmptyString => EmptyString
  end.

End PyStr.

(** ** urllib.parse

    Model of [urlsplit], [urlparse], [urlunparse] and [urljoin] of CPython's
    [urllib.parse].  Not covered: the [ValueError] raised for unbalanced
    square brackets in the network location; the functions of the model are
    total and go on where CPython raises. *)

Module UrlParse.
Import PyStr.

Record ParseResult := mkParse {
  scheme : string;
  netloc : string;
  path : string;
  params : string;
  query : string;
  fragment : string
}.

Definition uses_relative : list string :=
  [""; "ftp"; "http"; "gopher"; "nntp"; "imap"; "wais"; "file"; "https";
   "shttp"; "mms"; "prospero"; "rtsp"; "rtspu"; "sftp"; "svn"; "svn+ssh";
   "ws"; "wss"].

Definition uses_netloc : list string :=
  [""; "ftp"; "http"; "gopher"; "nntp"; "telnet"; "imap"; "wais"; "file";
   "mms"; "https"; "shttp"; "snews"; "prospero"; "rtsp"; "rtspu"; "rsync";
   "svn"; "svn+ssh"; "sftp"; "nfs"; "git"; "git+ssh"; "ws"; "wss"].

Definition uses_params : list string :=
  [""; "ftp"; "hdl"; "prospero"; "http"; "imap"; "https"; "shttp"; "rtsp";
   "rtspu"; "sip"; "sips"; "mms"; "sftp"; "tel"].

Definition mem (s : string) (l : list string) : bool :=
  existsb (String.eqb s) l.

Definition scheme_char (c : ascii) : bool :=
  (is_alpha c || is_digit c
   || Ascii.eqb c "+" || Ascii.eqb c "-" || Ascii.eqb c ".")%bool.

Fixpoint all_chars (p : ascii -> bool) (s : string) : bool :=
  match s with
  | EmptyString => true
  | String c s' => (p c && all_chars p s')%bool
  end.

(** C0 control characters and the space, stripped on the left of a URL. *)
Definition c0_or_space (c : ascii) : bool := Nat.leb (code c) 32.

(** TAB, LF and CR are removed from the URL wherever they stand. *)
Definition unsafe_byte (c : ascii) : bool :=
  (Ascii.eqb c "009" || Ascii.eqb c "010" || Ascii.eqb c "013")%bool.

Definition is_colon (c : ascii) : bool := Ascii.eqb c ":".
Definition is_netloc_delim (c : ascii) : bool :=
  (Ascii.eqb c "/" || Ascii.eqb c "?" || Ascii.eqb c "#")%bool.
Definition is_hash (c : ascii) : bool := Ascii.eqb c "#".
Definition is_qmark (c : ascii) : bool := Ascii.eqb c "?".
Definition is_semi (c : ascii) : bool := Ascii.eqb c ";".

(** The scheme test of [urlsplit]: [i = url.find(':')], [i > 0], the first
    character a letter and every character before the colon a scheme
    character. *)
Definition split_scheme (url : string) : option (string * string) :=
  match break is_colon url with
  | (String c0 before, String _ after) =>
      if (is_alpha c0 && all_chars scheme_char (String c0 before))%bool
      then Some (lower (String c0 before), after)
      else None
  | _ => None
  end.

(** [urlsplit(url, scheme)] as the tuple (scheme, netloc, path, query,
    fragment). *)
Definition urlsplit (url0 default_scheme : string)
  : string * string * string * string * string :=
  let url := remove_chars unsafe_byte (lstrip_by c0_or_space url0) in
  let '(sch, url) :=
    match split_scheme url with
    | Some (s, rest) => (s, rest)
    | None => (default_scheme, url)
    end in
  let '(nl, url) :=
    if startswith url "//"
    then break is_netloc_delim (drop_str 2 url)
    else (EmptyString, url) in
  let '(url, frag) :=
    match break is_hash url with
    | (a, String _ f) => (a, f)
    | (a, EmptyString) => (a, EmptyString)
    end in
  let '(url, q) :=
    match break is_qmark url with
    | (a, String _ f) => (a, f)
    | (a, EmptyString) => (a, EmptyString)
    end in
  (sch, nl, url, q, frag).

(** [_splitparams]: the parameters start at the first [;] of the last path
    segment. *)
Definition splitparams (url : string) : string * string :=
  let segs := split "/" url in
  match List.rev segs with
  | [] => (url, EmptyString)
  | last :: rinit =>
      match break is_semi last with
      | (a, String _ p) => (join "/" (List.rev (a :: rinit)), p)
      | (_, EmptyString) => (url, EmptyString)
      end
  end.

Definition urlparse_with (url default_scheme : string) : ParseResult :=
  let '(sch, nl, p, q, f) := urlsplit url default_scheme in
  let '(p, prm) :=
    if (mem sch uses_params && contains ";" p)%bool
    then splitparams p else (p, EmptyString) in
  mkParse sch nl p prm q f.

(** [urlparse(url)] *)
Definition urlparse (url : string) : ParseResult := urlparse_with url "".

Definition urlunsplit (sch nl url q f : string) : string :=
  let url :=
    if (truthy nl
        || (truthy sch && mem sch uses_netloc && negb (startswith url "//")))%bool
    then "//" +:+ nl +:+
         (if (truthy url && negb (startswith url "/"))%bool
          then "/" +:+ url else url)
    else url in
  let url := if truthy sch then sch +:+ ":" +:+ url else url in
  let url := if truthy q then url +:+ "?" +:+ q else url in
  if truthy f then url +:+ "#" +:+ f else url.

Definition urlunparse (r : ParseResult) : string :=
  let url := if truthy (params r) then path r +:+ ";" +:+ params r else path r in
  urlunsplit (scheme r) (netloc r) url (query r) (fragment r).

(** [del base_parts[-1]] when the last part is not empty. *)
Definition drop_last_nonempty (l : list string) : list string :=
  match List.rev l with
  | last :: rinit => if truthy last then List.rev rinit else l
  | [] => l
  end.

(** [segments[1:-1] = filter(None, segments[1:-1])] *)
Definition filter_middle (l : list string) : list string :=
  match l with
  | [] => []
  | first :: rest =>
      match List.rev rest with
      | [] => [first]
      | last :: rmid =>
          first :: List.filter truthy (List.rev rmid) ++ [last]
      end
  end.

(** The loop of [urljoin] that resolves [.] and [..]; [acc] is
    [resolved_path] reversed. *)
Fixpoint resolve_dots (acc : list string) (segs : list string) : list string :=
  match segs with
  | [] => List.rev acc
  | seg :: segs' =>
      if String.eqb seg ".." then resolve_dots (List.tl acc) segs'
      else if String.eqb seg "." then resolve_dots acc segs'
      else resolve_dots (seg :: acc) segs'
  end.

Definition last_is_dot (segs : list string) : bool :=
  match List.rev segs with
  | last :: _ => (String.eqb last "." || String.eqb last "..")%bool
  | [] => false
  end.

(** [urljoin(base, url)] *)
Definition urljoin (base url : string) : string :=
  if negb (truthy base) then url
  else if negb (truthy url) then base
  else
    let b := urlparse_with base "" in
    let u := urlparse_with url (scheme b) in
    if (negb (String.eqb (scheme u) (scheme b))
        || negb (mem (scheme u) uses_relative))%bool
    then url
    else if (mem (scheme u) uses_netloc && truthy (netloc u))%bool
    then urlunparse u
    else
      let nl := if mem (scheme u) uses_netloc then netloc b else netloc u in
      if (negb (truthy (path u)) && negb (truthy (params u)))%bool
      then
        urlunparse (mkParse (scheme u) nl (path b) (params b)
                      (if truthy (query u) then query u else query b)
                      (fragment u))
      else
        let base_parts := drop_last_nonempty (split "/" (path b)) in
        let segments :=
          if startswith (path u) "/" then split "/" (path u)
          else filter_middle (base_parts ++ split "/" (path u)) in
        let resolved_path :=
          resolve_dots [] segments ++ (if last_is_dot segments then [""] else []) in
        let joined := join "/" resolved_path in
        urlunparse (mkParse (scheme u) nl
                      (if truthy joined then joined else "/")
                      (params u) (query u) (fragment u)).

End UrlParse.

(** ** The three regular expressions of the programs *)

Module Re.
Import PyStr.

(** The longest prefix of [s] whose characters satisfy [p], and the rest. *)
Definition span (p : ascii -> bool) (s : string) : string * string :=
  break (fun c => negb (p c)) s.

(** [re.findall] scans left to right and resumes after the end of each
    match.  [m] tries a match at the start of its argument and gives the
    group that is reported and the length of the whole match; [skip]
    counts the characters that are still inside the previous match. *)
Fixpoint findall_from (m : string -> option (string * nat)) (skip : nat)
    (s : string) : list string :=
  match s with
  | EmptyString => []
  | String _ s' =>
      match skip with
      | S k => findall_from m k s'
      | O =>
          match m s with
          | Some (g, len) => g :: findall_from m (Nat.pred len) s'
          | None => findall_from m O s'
          end
      end
  end.

(** The class of the raw-text pattern: anything but white space, the two
    quote characters and the angle brackets. *)
Definition url_char (c : ascii) : bool :=
  negb (is_space c || is_quote c || Ascii.eqb c "<" || Ascii.eqb c ">")%bool.

(** A match of [https?://] followed by one or more [url_char] at the start
    of [s]. *)
Definition match_http (s : string) : option (string * nat) :=
  if startswith s "http" then
    let r := drop_str 4 s in
    let after :=
      if startswith r "s://" then Some ("https://", drop_str 4 r)
      else if startswith r "://" then Some ("http://", drop_str 3 r)
      else None in
    match after with
    | Some (pre, rest) =>
        let run := fst (span url_char rest) in
        if truthy run then Some (pre +:+ run, String.length (pre +:+ run))
        else None
    | None => None
    end
  else None.

(** [re.findall(regex_pattern, html_content)] for the raw-text pattern *)
Definition findall_http (html_content : string) : list string :=
  findall_from match_http O html_content.

Definition not_rparen (c : ascii) : bool := negb (Ascii.eqb c ")").

(** A match of [url(], one or more characters other than [)], then [)] at
    the start of [s]; the group is what stands between the brackets. *)
Definition match_css (s : string) : option (string * nat) :=
  if startswith s "url(" then
    match span not_rparen (drop_str 4 s) with
    | (run, String _ _) =>
        if truthy run then Some (run, (String.length run + 5)%nat) else None
    | (_, EmptyString) => None
    end
  else None.

(** [re.findall] of the inline-CSS pattern *)
Definition findall_css (html_content : string) : list string :=
  findall_from match_css O html_content.

Definition non_space (c : ascii) : bool := negb (is_space c).

(** A case-insensitive match of [url=] followed by one or more characters
    that are not white space, at the start of [s]. *)
Definition match_url_param (s : string) : option string :=
  if String.eqb (lower (String.substring 0 4 s)) "url=" then
    let run := fst (span non_space (drop_str 4 s)) in
    if truthy run then Some run else None
  else None.

(** [re.search] of the meta-refresh pattern with [re.IGNORECASE]: group 1
    of the leftmost match. *)
Fixpoint search_url_param (s : string) : option string :=
  match s with
  | EmptyString => None
  | String _ s' =>
      match match_url_param s with
      | Some g => Some g
      | None => search_url_param s'
      end
  end.

(** [int(s)] for a decimal literal: surrounding white space, an optional
    sign, digits, single underscores between digits, and no more digits than
    [sys.get_int_max_str_digits()] allows.  [None] stands for [ValueError]. *)
Fixpoint digits_value (acc : Z) (after_digit : bool) (s : string) : option Z :=
  match s with
  | EmptyString => if after_digit then Some acc else None
  | String c s' =>
      if is_digit c
      then digits_value (10 * acc + Z.of_nat (code c - 48)) true s'
      else if (Ascii.eqb c "_" && after_digit)%bool
      then match s' with
           | EmptyString => None
           | String d _ => if is_digit d then digits_value acc false s' else None
           end
      else None
  end.

(** The white space [int] accepts around the literal: TAB to CR, the space
    and, of the other code points below 256, NEL and the no-break space; the
    separators FS to US are not accepted. *)
Definition int_space (c : ascii) : bool :=
  (in_range 9 13 c || Nat.eqb (code c) 32
   || Nat.eqb (code c) 133 || Nat.eqb (code c) 160)%bool.

(** The default of [sys.get_int_max_str_digits()]. *)
Definition max_str_digits : nat := 4300.

(** The digits of a literal; signs, underscores and white space do not
    count, leading zeros do. *)
Fixpoint count_digits (s : string) : nat :=
  match s with
  | EmptyString => O
  | String c s' => ((if is_digit c then 1 else 0) + count_digits s')%nat
  end.

Definition py_int_digits (ds : string) : option Z :=
  if Nat.leb (count_digits ds) max_str_digits
  then digits_value 0 false ds
  else None.

Definition py_int (s : string) : option Z :=
  match strip_by int_space s with
  | String "-" ds => Z.opp <$> py_int_digits ds
  | String "+" ds => py_int_digits ds
  | ds => py_int_digits ds
  end.

End Re.

(** ** What the programs take from outside *)

(** A tag of the parsed document: its name, its attribute dictionary and
    its [.string]. *)
Record Tag := mkTag {
  tag_name : string;
  tag_attrs : gmap string string;
  tag_string : option string
}.

(** The parsed document: [find_all(True)] in document order and
    [get_text(separator=" ", strip=True)]. *)
Record Soup := mkSoup {
  soup_tags : list Tag;
  soup_text : string
}.

(** Library functions that are not modelled in detail. *)
Class PyLib := {
  (** [BeautifulSoup(content, "html.parser")] *)
  parse_html : string -> Soup;
  (** [html.unescape] *)
  html_unescape : string -> string;
  (** [urllib.request.url2pathname] *)
  url2pathname : string -> string;
  (** the order in which a [set] of strings is iterated *)
  set_iter : gset string -> list string;
  set_iter_perm : forall s, set_iter s ≡ₚ elements s
}.

(** The file system and the network, and the order in which the thread
    pool completes its tasks. *)
Class World := {
  (** [os.path.exists] *)
  path_exists : string -> bool;
  (** [open(path).read()]; [None] when it raises *)
  read_file : string -> option string;
  (** [requests.get]: status code and text, [None] when it raises *)
  http_get : string -> option (Z * string);
  (** [requests.head] with redirects followed: the final status code, or
      the message of the exception *)
  http_head : string -> Z + string;
  (** [as_completed]: the submitted tasks in completion order *)
  as_completed : list string -> list string;
  as_completed_perm : forall l, as_completed l ≡ₚ l
}.

(** Calls that leave the program, in the order they are made. *)
Inductive Event :=
| Scrape (url : string)
| Head (url : string).

Record PageData := mkPage {
  page_url : string;
  page_title : string;
  page_text : string;
  page_images : list (string * string);
  page_links : gset string
}.

(** [soup.title]: the first [title] tag. *)
Definition soup_title (soup : Soup) : option Tag :=
  List.find (fun t => String.eqb (tag_name t) "title") (soup_tags soup).

(** [soup.title.string.strip() if soup.title and soup.title.string else ""] *)
Definition title_of (soup : Soup) : string :=
  match soup_title soup with
  | Some t =>
      match tag_string t with
      | Some s => if PyStr.truthy s then PyStr.strip s else ""
      | None => ""
      end
  | None => ""
  end.

(** The loop over [soup.find_all("img", src=True)]. *)
Definition images_of (soup : Soup) (url : string) : list (string * string) :=
  omap (fun img =>
          if String.eqb (tag_name img) "img" then
            match tag_attrs img !! "src" with
            | Some src =>
                Some (UrlParse.urljoin url src,
                      PyStr.strip (default "" (tag_attrs img !! "alt")))
            | None => None
            end
          else None)
       (soup_tags soup).

(** [sorted(l)] on strings: a stable sort by the lexicographic order of the
    characters. *)
Definition sorted (l : list string) : list string := merge_sort String.le l.

(** ** [[STABLE]WBSLSCv4.py]: the link-tree crawler *)

Module WBSLSCv4.
Import PyStr UrlParse.

Definition is_valid (url : string) : bool :=
  let parsed := urlparse url in
  (truthy (scheme parsed) && truthy (netloc parsed))%bool.

Definition url_attrs : list string :=
  ["href"; "src"; "action"; "data-href"; "data-src"; "data-url";
   "data-link"; "oneclick"].

(** The test that follows every [urljoin] of [get_all_links]:
    [if full_url.startswith("file://"): links.add(full_url)
     elif is_valid(full_url) and
          urlparse(full_url).netloc == urlparse(base_url).netloc:
        links.add(full_url)] *)
Definition add_link (base_url full_url : string) (links : gset string)
  : gset string :=
  if startswith full_url "file://" then {[full_url]} ∪ links
  else if (is_valid full_url
           && String.eqb (netloc (urlparse full_url)) (netloc (urlparse base_url)))%bool
  then {[full_url]} ∪ links
  else links.

(** The filter of [soup.find_all("meta", attrs={"http-equiv": ...})]. *)
Definition is_meta_refresh (t : Tag) : bool :=
  (String.eqb (tag_name t) "meta"
   && match tag_attrs t !! "http-equiv" with
      | Some x => truthy x && String.eqb (lower x) "refresh"
      | None => false
      end)%bool.

Inductive TreeNode :=
| mkNode (url title : string) (links : list string) (children : list TreeNode).

Definition node_url (n : TreeNode) := let 'mkNode u _ _ _ := n in u.
Definition node_title (n : TreeNode) := let 'mkNode _ t _ _ := n in t.
Definition node_links (n : TreeNode) := let 'mkNode _ _ l _ := n in l.
Definition node_children (n : TreeNode) := let 'mkNode _ _ _ c := n in c.

(** The state a traversal threads through its calls: the shared
    [visited] set, and the calls of [scrape_page] made so far (each one
    follows the line [Scraping: url] the program prints). *)
Record Crawl := mkCrawl {
  visited : gset string;
  log : list Event
}.

(** All nodes of a tree, the root first. *)
Fixpoint nodes (n : TreeNode) : list TreeNode :=
  n :: flat_map nodes (node_children n).

(** The URLs of the [scrape_page] calls of a log. *)
Definition scraped (l : list Event) : list string :=
  omap (fun e => match e with Scrape u => Some u | Head _ => None end) l.

(** What one traversal may do to the state: it scrapes URLs that were not
    in [visited], each one once, and adds exactly those to [visited]. *)
Definition scrapes_once (st st' : Crawl) : Prop :=
  exists new,
    log st' = log st ++ new
    /\ NoDup (scraped new)
    /\ (forall u, u ∈ scraped new -> u ∉ visited st)
    /\ visited st' = visited st ∪ list_to_set (scraped new).

(** Every edge of the tree passed the test [follows]. *)
Definition obeys_scope (follows : string -> string -> bool) (t : TreeNode) : Prop :=
  forall n c, n ∈ nodes t -> c ∈ node_children n ->
              follows (node_url n) (node_url c) = true.

(** Induction on trees, with the hypothesis for every child. *)
Fixpoint TreeNode_forall_ind (P : TreeNode -> Prop)
    (step : forall url title links children,
        Forall P children -> P (mkNode url title links children))
    (n : TreeNode) : P n :=
  match n with
  | mkNode url title links children =>
      step url title links children
        ((fix all (cs : list TreeNode) : Forall P cs :=
            match cs with
            | [] => List.Forall_nil P
            | c :: cs' =>
                List.Forall_cons P c cs' (TreeNode_forall_ind P step c) (all cs')
            end) children)
  end.

Section Program.
Context `{PyLib} `{World}.

(** First loop: the attributes of every tag. *)
Definition scan_attrs (soup : Soup) (base_url : string) (links : gset string)
  : gset string :=
  foldl (fun links tag =>
           foldl (fun links attr =>
                    match tag_attrs tag !! attr with
                    | Some url_candidate =>
                        if truthy url_candidate
                        then add_link base_url (urljoin base_url url_candidate) links
                        else links
                    | None => links
                    end)
                 links url_attrs)
        links (soup_tags soup).

(** Second loop: the meta refresh tags. *)
Definition scan_meta (soup : Soup) (base_url : string) (links : gset string)
  : gset string :=
  foldl (fun links meta =>
           let content := default "" (tag_attrs meta !! "content") in
           match Re.search_url_param content with
           | Some g =>
               let url_candidate := strip_quotes (strip g) in
               add_link base_url (urljoin base_url url_candidate) links
           | None => links
           end)
        links (List.filter is_meta_refresh (soup_tags soup)).

(** Third loop: [url(...)] in the raw text. *)
Definition scan_css (html_content base_url : string) (links : gset string)
  : gset string :=
  foldl (fun links css_url =>
           let css_url := strip_quotes (strip css_url) in
           add_link base_url (urljoin base_url css_url) links)
        links (Re.findall_css html_content).

(** Fourth loop: anything that looks like an http(s) URL in the raw text. *)
Definition scan_regex (html_content base_url : string) (links : gset string)
  : gset string :=
  foldl (fun links m => add_link base_url (urljoin base_url m) links)
        links (Re.findall_http html_content).

Definition get_all_links (html_content base_url : string) : gset string :=
  let soup := parse_html html_content in
  let links := ∅ in
  let links := scan_attrs soup base_url links in
  let links := scan_meta soup base_url links in
  let links := scan_css html_content base_url links in
  let links := scan_regex html_content base_url links in
  links.

(** [None] is the [return None] of the source, on every path that
    prints a warning or catches an exception of the fetch.  A [ValueError]
    of [urljoin] after the fetch, which the source also turns into [None],
    is not covered (see [UrlParse]). *)
Definition scrape_page (url : string) : option PageData :=
  let content :=
    if startswith url "file://" then
      let path := url2pathname (path (urlparse url)) in
      if negb (path_exists path) then None
      else read_file path
    else
      match http_get url with
      | Some (status_code, text) =>
          if negb (status_code =? 200) then None else Some text
      | None => None
      end in
  match content with
  | Some content =>
      let soup := parse_html content in
      Some (mkPage url (title_of soup) (soup_text soup)
              (images_of soup url) (get_all_links content url))
  | None => None
  end.

(** The test that guards the recursive call in the loop over the links
    of the page at [url]. *)
Definition follows (url base_domain link : string) : bool :=
  if startswith url "file://" then startswith link "file://"
  else String.eqb (netloc (urlparse link)) base_domain.

(** [for link in page_data["links"]: ...] with the recursive call [rec]. *)
Fixpoint visit_links
    (rec : string -> Crawl -> option (option TreeNode * Crawl))
    (url base_domain : string) (links : list string)
    (children : list TreeNode) (st : Crawl)
  : option (list TreeNode * Crawl) :=
  match links with
  | [] => Some (children, st)
  | link :: rest =>
      if follows url base_domain link then
        match rec link st with
        | Some (child, st') =>
            visit_links rec url base_domain rest
              (match child with
               | Some c => children ++ [c]
               | None => children
               end) st'
        | None => None
        end
      else visit_links rec url base_domain rest children st
  end.

(** [build_tree] with a bound on the nesting of calls; the outer [None]
    means the bound was reached. *)
Fixpoint build_tree_fuel (fuel : nat) (url base_domain : string)
    (max_depth : Z) (st : Crawl) : option (option TreeNode * Crawl) :=
  match fuel with
  | O => None
  | S fuel' =>
      if decide (url ∈ visited st) then Some (None, st)
      else
        let st := mkCrawl ({[url]} ∪ visited st) (log st ++ [Scrape url]) in
        match scrape_page url with
        | None => Some (None, st)
        | Some page_data =>
            let url' := page_url page_data in
            let title := page_title page_data in
            let links := sorted (set_iter (page_links page_data)) in
            if 0 <? max_depth then
              match visit_links
                      (fun link st =>
                         build_tree_fuel fuel' link base_domain (max_depth - 1) st)
                      url base_domain (set_iter (page_links page_data)) [] st
              with
              | Some (children, st') =>
                  Some (Some (mkNode url' title links children), st')
              | None => None
              end
            else Some (Some (mkNode url' title links []), st)
        end
  end.

(** [build_tree(url, base_domain, max_depth, visited)] *)
Definition build_tree (url base_domain : string) (max_depth : Z) (st : Crawl)
  : option (option TreeNode * Crawl) :=
  build_tree_fuel (S (Z.to_nat max_depth)) url base_domain max_depth st.

(** The depth the main program reads: the stripped input, [1] when it is
    empty or not an integer. *)
Definition read_max_depth (input : string) : Z :=
  let max_depth_input := strip input in
  if truthy max_depth_input
  then match Re.py_int max_depth_input with
       | Some n => n
       | None => 1
       end
  else 1.

(** [base_domain] as the main program computes it. *)
Definition base_domain_of (website_url : string) : string :=
  let parsed_base := urlparse website_url in
  if String.eqb (scheme parsed_base) "file" then website_url
  else netloc parsed_base.

(** The main program up to the call of [build_tree]. *)
Definition crawl (website_url : string) (max_depth : Z)
  : option (option TreeNode * Crawl) :=
  build_tree website_url (base_domain_of website_url) max_depth (mkCrawl ∅ []).

End Program.
End WBSLSCv4.

(** ** [[STABLE]brokenScraperV2.96.5.py]: the link-health scanner *)

Module brokenScraper.
Import PyStr UrlParse.

Definition ERROR_CODES : gset Z := {[404]}.

Definition is_valid (url : string) : bool :=
  let parsed := urlparse url in
  (truthy (scheme parsed) && truthy (netloc parsed))%bool.

Definition url_attrs : list string :=
  ["href"; "src"; "action"; "data-href"; "data-src"].

Record BrokenLinkRecord := mkRecord {
  parent_url : string;
  broken_link : string;
  status : Z;
  error : string
}.

Section Program.
Context `{PyLib} `{World}.

(** First loop: the attributes of every tag. *)
Definition scan_attrs (soup : Soup) (base_url : string) (links : gset string)
  : gset string :=
  foldl (fun links tag =>
           foldl (fun links attr =>
                    match tag_attrs tag !! attr with
                    | Some url_candidate =>
                        if truthy url_candidate then
                          let url_candidate := html_unescape url_candidate in
                          let full_url := urljoin base_url url_candidate in
                          if (startswith full_url "file://" || is_valid full_url)%bool
                          then {[full_url]} ∪ links
                          else links
                        else links
                    | None => links
                    end)
                 links url_attrs)
        links (soup_tags soup).

(** Second loop: anything that looks like an http(s) URL in the raw text. *)
Definition scan_regex (html_content base_url : string) (links : gset string)
  : gset string :=
  foldl (fun links m =>
           let unescaped_match := html_unescape m in
           let full_url := urljoin base_url unescaped_match in
           if is_valid full_url then {[full_url]} ∪ links else links)
        links (Re.findall_http html_content).

Definition get_all_links (html_content base_url : string) : gset string :=
  let soup := parse_html html_content in
  let links := ∅ in
  let links := scan_attrs soup base_url links in
  let links := scan_regex html_content base_url links in
  links.

Definition scrape_page (url : string) : option PageData :=
  let content :=
    if startswith url "file://" then
      let path := url2pathname (path (urlparse url)) in
      if negb (path_exists path) then None
      else read_file path
    else
      match http_get url with
      | Some (status_code, text) =>
          if negb (status_code =? 200) then None else Some text
      | None => None
      end in
  match content with
  | Some content =>
      let soup := parse_html content in
      Some (mkPage url (title_of soup) (soup_text soup)
              (images_of soup url) (get_all_links content url))
  | None => None
  end.

(** [check_link(url)]: the pair (status, error); a [None] status is the
    [None] of the source. *)
Definition check_link (url : string) : option Z * string :=
  match http_head url with
  | inl status_code =>
      if decide (status_code ∈ ERROR_CODES)
      then (Some status_code, "Status " +:+ pretty status_code)
      else (Some status_code, "")
  | inr e => (None, e)
  end.

(** The body of the loop over the completed checks. *)
Definition record_link (url : string) (records : list BrokenLinkRecord)
    (link : string) : list BrokenLinkRecord :=
  let '(status, error) := check_link link in
  match status with
  | Some status =>
      if decide (status ∈ ERROR_CODES)
      then records ++ [mkRecord url link status error]
      else records
  | None => records
  end.

(** [process_input_url(url)]: the records, and the calls that were made
    (the checks of the pool in the order they complete). *)
Definition process_input_url (url : string)
  : list BrokenLinkRecord * list Event :=
  let records := [] in
  match scrape_page url with
  | None => (records, [Scrape url])
  | Some page_data =>
      let '(status, error) := check_link url in
      let records :=
        match status with
        | Some status =>
            if decide (status ∈ ERROR_CODES)
            then records ++
                 [mkRecord url url status
                    (if truthy error then error else "Broken main page")]
            else records
        | None => records
        end in
      let links := set_iter (page_links page_data) in
      let completed := as_completed links in
      (foldl (record_link url) records completed,
       [Scrape url; Head url] ++ (Head <$> completed))
  end.

End Program.
End brokenScraper.

(** ** The extractor as the specification describes it

    Four strategies, each giving raw candidate strings; every candidate is
    decoded, resolved against the base URL and kept when the acceptance
    policy holds; the result is the union of the four sets. *)

Module Extract.
Import PyStr UrlParse.

(** Strategy 1: the non-empty values of the listed attributes, on every
    element. *)
Definition attribute_scan (attrs : list string) (soup : Soup) : list string :=
  flat_map (fun tag =>
              flat_map (fun attr =>
                          match tag_attrs tag !! attr with
                          | Some c => if truthy c then [c] else []
                          | None => []
                          end) attrs)
           (soup_tags soup).

(** Strategy 2: the [url=] parameter of the meta refresh elements, without
    surrounding quotes. *)
Definition meta_refresh_scan (soup : Soup) : list string :=
  omap (fun meta =>
          (fun g => strip_quotes (strip g))
            <$> Re.search_url_param (default "" (tag_attrs meta !! "content")))
       (List.filter WBSLSCv4.is_meta_refresh (soup_tags soup)).

(** Strategy 3: what stands inside [url(...)] in the raw text. *)
Definition inline_css_scan (html_content : string) : list string :=
  (fun c => strip_quotes (strip c)) <$> Re.findall_css html_content.

(** Strategy 4: the http(s) URLs of the raw text. *)
Definition raw_text_scan (html_content : string) : list string :=
  Re.findall_http html_content.

(** The URLs one strategy contributes. *)
Definition resolved (decode : string -> string) (accept : string -> bool)
    (base_url : string) (candidates : list string) : gset string :=
  list_to_set
    (List.filter accept ((fun c => urljoin base_url (decode c)) <$> candidates)).

(** Acceptance in the crawler: a local-file URL, or a valid URL on the host
    of the base URL. *)
Definition in_scope (base_url full_url : string) : bool :=
  (startswith full_url "file://"
   || (WBSLSCv4.is_valid full_url
       && String.eqb (netloc (urlparse full_url)) (netloc (urlparse base_url))))%bool.


Section Extractor.
Context `{PyLib}.

(** The union of the four strategies. *)
Definition spec_extract (attrs : list string) (decode : string -> string)
    (accept : string -> bool) (html_content base_url : string) : gset string :=
  let soup := parse_html html_content in
  resolved decode accept base_url (attribute_scan attrs soup)
  ∪ resolved decode accept base_url (meta_refresh_scan soup)
  ∪ resolved decode accept base_url (inline_css_scan html_content)
  ∪ resolved decode accept base_url (raw_text_scan html_content).

End Extractor.
End Extract.

(** ** A small site, for running the programs *)

Module Fixture.
Import PyStr.

(** Numeric character references below 128, [&#xHH;] and [&#DD;], as
    [html.unescape] decodes them; everything else is left as it is. *)
Definition hex_digit (c : ascii) : option nat :=
  if is_digit c then Some (code c - 48)%nat
  else if in_range 97 102 c then Some (code c - 87)%nat
  else if in_range 65 70 c then Some (code c - 55)%nat
  else None.

Definition dec_digit (c : ascii) : option nat :=
  if is_digit c then Some (code c - 48)%nat else None.

Fixpoint number (digit : ascii -> option nat) (base acc : nat) (s : string)
  : option nat :=
  match s with
  | EmptyString => Some acc
  | String c s' =>
      match digit c with
      | Some d => number digit base (base * acc + d)%nat s'
      | None => None
      end
  end.

Definition charref (s : string) : option (ascii * string) :=
  if startswith s "&#" then
    match break (fun c => Ascii.eqb c ";") (drop_str 2 s) with
    | (String c ds, String _ rest) =>
        let n :=
          if (Ascii.eqb c "x" || Ascii.eqb c "X")%bool
          then (if truthy ds then number hex_digit 16 0 ds else None)
          else number dec_digit 10 0 (String c ds) in
        match n with
        | Some n => if (Nat.ltb 0 n && Nat.ltb n 128)%bool
                    then Some (ascii_of_nat n, rest) else None
        | None => None
        end
    | _ => None
    end
  else None.

Fixpoint unescape_from (skip : nat) (s : string) : string :=
  match s with
  | EmptyString => EmptyString
  | String c s' =>
      match skip with
      | S k => unescape_from k s'
      | O =>
          match charref s with
          | Some (d, rest) =>
              String d (unescape_from (String.length s' - String.length rest) s')
          | None => String c (unescape_from O s')
          end
      end
  end.

Definition unescape (s : string) : string := unescape_from O s.

Definition attrs (l : list (string * string)) : gmap string string :=
  list_to_map l.

Definition home_html : string :=
  "<a href=/b>b</a><a href=file://h/a.html>mirror</a>".
Definition b_html : string :=
  "<title> B </title><a href=/>home</a> see http://h/a&#x2B;b".
Definition a_file : string := "<a href=file://other/b.html>next</a>".
Definition b_file : string := "<p>end</p>".
Definition refresh_html : string :=
  "<meta http-equiv=Refresh content=5;URL=/next><p style=background:url(/bg.png)>".
Definition seed_html : string :=
  "<a href=/ok>1</a><a href=/gone>2</a><a href=http://down/>3</a>".
Definition escaped_html : string := "<a href=foo.com/a&amp;#x2B;b>x</a>".

Definition pages : list (string * Soup) :=
  [ (home_html,
     mkSoup [mkTag "a" (attrs [("href", "/b")]) (Some "b");
             mkTag "a" (attrs [("href", "file://h/a.html")]) (Some "mirror")]
            "b mirror");
    (b_html,
     mkSoup [mkTag "title" ∅ (Some " B ");
             mkTag "a" (attrs [("href", "/")]) (Some "home")]
            "B home see http://h/a+b");
    (a_file,
     mkSoup [mkTag "a" (attrs [("href", "file://other/b.html")]) (Some "next")]
            "next");
    (b_file, mkSoup [mkTag "p" ∅ (Some "end")] "end");
    (refresh_html,
     mkSoup [mkTag "meta" (attrs [("http-equiv", "Refresh");
                                  ("content", "5;URL=/next")]) None;
             mkTag "p" (attrs [("style", "background:url(/bg.png)")]) None]
            "");
    (seed_html,
     mkSoup [mkTag "a" (attrs [("href", "/ok")]) (Some "1");
             mkTag "a" (attrs [("href", "/gone")]) (Some "2");
             mkTag "a" (attrs [("href", "http://down/")]) (Some "3")]
            "1 2 3");
    (escaped_html,
     mkSoup [mkTag "a" (attrs [("href", "foo.com/a&#x2B;b")]) (Some "x")] "x") ].

Definition lookup_str {A} (k : string) (l : list (string * A)) : option A :=
  snd <$> List.find (fun p => String.eqb (fst p) k) l.

#[global] Instance lib : PyLib := {|
  parse_html content := default (mkSoup [] content) (lookup_str content pages);
  html_unescape := unescape;
  url2pathname p := p;
  set_iter := elements;
  set_iter_perm s := reflexivity _
|}.

Definition files : list (string * string) :=
  [ ("/a.html", a_file); ("/b.html", b_file) ].

Definition site : list (string * (Z * string)) :=
  [ ("http://h/", (200, home_html));
    ("http://h/b", (200, b_html));
    ("http://s/", (200, seed_html));
    ("http://gone/", (404, "Not Found")) ].

Definition heads : list (string * Z) :=
  [ ("http://s/", 404); ("http://s/ok", 200); ("http://s/gone", 404) ].

#[global] Instance world : World := {|
  path_exists p := bool_decide (is_Some (lookup_str p files));
  read_file p := lookup_str p files;
  http_get url := lookup_str url site;
  http_head url :=
    match lookup_str url heads with
    | Some code => inl code
    | None => inr "Connection refused"
    end;
  as_completed := reverse;
  as_completed_perm := reverse_Permutation
|}.

End Fixture.

(** ** The rest of [[STABLE]WBSLSCv4.py]: flattening the tree *)

Module WBSLSCv4_main.
Import PyStr WBSLSCv4.

(** [unique_links] is a dictionary from URL to title; the rows of the CSV
    file are its items in insertion order, so it is kept as the list of its
    items in that order. *)
Definition has_key (url : string) (unique_links : list (string * string)) : bool :=
  existsb (fun item => String.eqb (fst item) url) unique_links.

(** [unique_links.get(url)] *)
Definition get (url : string) (unique_links : list (string * string))
  : option string :=
  snd <$> List.find (fun item => String.eqb (fst item) url) unique_links.

(** [traverse_tree(node, unique_links)] for a node that is a dictionary;
    the dictionary is shared by all the calls. *)
Fixpoint traverse_tree (node : TreeNode) (unique_links : list (string * string))
  : list (string * string) :=
  match node with
  | mkNode url title _ children =>
      let unique_links :=
        if (truthy url && negb (has_key url unique_links))%bool
        then unique_links ++ [(url, title)]
        else unique_links in
      (fix loop (children : list TreeNode) (unique_links : list (string * string)) :=
         match children with
         | [] => unique_links
         | child :: rest => loop rest (traverse_tree child unique_links)
         end) children unique_links
  end.


(** The number of links on the longest path from the root to a node. *)
Fixpoint height (node : TreeNode) : nat :=
  match node with
  | mkNode _ _ _ children =>
      (fix deepest (children : list TreeNode) : nat :=
         match children with
         | [] => O
         | child :: rest => Nat.max (S (height child)) (deepest rest)
         end) children
  end.

(** What a visit of a node may add to the dictionary. *)
Definition add_first (unique_links : list (string * string))
    (item : string * string) : list (string * string) :=
  if (truthy (fst item) && negb (has_key (fst item) unique_links))%bool
  then unique_links ++ [item]
  else unique_links.

(** URL and title of a node. *)
Definition row (node : TreeNode) : string * string :=
  (node_url node, node_title node).

End WBSLSCv4_main.

(** ** The rest of [[STABLE]brokenScraperV2.96.5.py]: the main program *)

Module brokenScraper_main.
Import PyStr brokenScraper.

(** The loop over the lines of a text file. *)
Definition urls_from_lines (lines : list string) : list string :=
  foldl (fun urls line =>
           let url := strip line in
           if truthy url then urls ++ [url] else urls)
        [] lines.

(** The loop over the rows of a CSV file, as [csv.reader] gives them. *)
Definition urls_from_rows (rows : list (list string)) : list string :=
  foldl (fun urls row =>
           match row with
           | [] => urls
           | field :: _ =>
               let url := strip field in
               if truthy url then urls ++ [url] else urls
           end)
        [] rows.

(** The choice between the two by the extension [ext] of the file name,
    which is [os.path.splitext(input_filename)[1]]. *)
Definition read_urls (ext : string) (lines : list string)
    (rows : list (list string)) : list string :=
  if String.eqb (lower ext) ".txt" then urls_from_lines lines
  else urls_from_rows rows.

Section Program.
Context `{PyLib} `{World}.

(** The outer pool: the seeds are processed and [all_records] is extended
    with the records of each, in the order the seeds complete. *)
Definition scan_all (urls : list string) : list BrokenLinkRecord :=
  foldl (fun all_records url => all_records ++ fst (process_input_url url))
        [] (as_completed urls).

End Program.
End brokenScraper_main.

(** A second site: one page, [http://h/], that links to itself and whose
    checks all answer 404. *)
Definition self_linking_site : World := {|
  path_exists _ := false;
  read_file _ := None;
  http_get url :=
    if String.eqb url "http://h/" then Some (200, Fixture.b_html) else None;
  http_head _ := inl 404;
  as_completed l := l;
  as_completed_perm l := reflexivity l
|}.

(** A third site: one page with a title and two image tags, one of them
    without a source. *)
Definition gallery_html : string :=
  "<title> Gallery </title><img src='pic/a.png' alt=' logo '><img alt='none'>".

Definition gallery_lib : PyLib := {|
  parse_html content :=
    if String.eqb content gallery_html
    then mkSoup [mkTag "title" ∅ (Some " Gallery ");
                 mkTag "img" (Fixture.attrs [("src", "pic/a.png"); ("alt", " logo ")]) None;
                 mkTag "img" (Fixture.attrs [("alt", "none")]) None]
                "Gallery"
    else mkSoup [] content;
  html_unescape := Fixture.unescape;
  url2pathname p := p;
  set_iter := elements;
  set_iter_perm s := reflexivity _
|}.

Definition gallery_site : World := {|
  path_exists _ := false;
  read_file _ := None;
  http_get url :=
    if String.eqb url "http://g/dir/" then Some (200, gallery_html) else None;
  http_head _ := inl 200;
  as_completed l := l;
  as_completed_perm l := reflexivity l
|}.

Example urlparse_http :
  UrlParse.urlparse "HTTP://Example.com:80/a/b;p?x=1#f"
  = UrlParse.mkParse "http" "Example.com:80" "/a/b" "p" "x=1" "f".
Proof. vm_compute. reflexivity. Qed.

Example urlparse_file :
  UrlParse.urlparse "file:///tmp/a.html"
  = UrlParse.mkParse "file" "" "/tmp/a.html" "" "" "".
Proof. vm_compute. reflexivity. Qed.

Example urljoin_relative :
  UrlParse.urljoin "http://h/dir/page.html" "../x/./y.html?q#f" = "http://h/x/y.html?q#f".
Proof. vm_compute. reflexivity. Qed.

Example findall_examples :
  Re.findall_http "<p>http://h/a&#x2B;b</p> https://x httpss://y http://"
  = ["http://h/a&#x2B;b"; "https://x"]
  /\ Re.findall_http "httphttp://a b" = ["http://a"]
  /\ Re.findall_css "url(a) url() url(b url(c) x) url(d" = ["a"; "b url(c"]
  /\ Re.search_url_param "5; URL= x url='http://e/' y" = Some "'http://e/'"
  /\ PyStr.strip_quotes (PyStr.strip "'http://e/'") = "http://e/".
Proof. vm_compute. repeat split. Qed.

Example py_int_examples :
  Re.py_int "-3" = Some (-3) /\ Re.py_int " 1_0 " = Some 10
  /\ Re.py_int "1__0" = None /\ Re.py_int "" = None /\ Re.py_int "-" = None
  /\ Re.py_int "+7" = Some 7 /\ Re.py_int "2.5" = None.
Proof. vm_compute. repeat split. Qed.

Example urljoin_examples :
  UrlParse.urljoin "http://h/" "foo.com/a+b" = "http://h/foo.com/a+b"
  /\ UrlParse.urljoin "http://h/" "http://h/a&#x2B;b" = "http://h/a&#x2B;b"
  /\ UrlParse.urljoin "http://h/" "file://h/a.html" = "file://h/a.html"
  /\ UrlParse.urljoin "file://h/a.html" "file:///b.html" = "file://h/b.html"
  /\ UrlParse.urljoin "file://h/a.html" "file://other/b.html" = "file://other/b.html"
  /\ UrlParse.urljoin "http://h/a/b" "//g/c" = "http://g/c"
  /\ UrlParse.urljoin "http://h/a/b?x" "#top" = "http://h/a/b?x#top"
  /\ UrlParse.urljoin "http://h/a/b" "mailto:me@h" = "mailto:me@h".
Proof. vm_compute. repeat split. Qed.

(** * Properties *)

(** Closed, decidable facts about the fixture are settled by evaluation. *)
Ltac by_evaluation :=
  match goal with
  | |- ?P => apply (bool_decide_eq_true_1 P); vm_compute; reflexivity
  end.

(** ** Loops that add to a set *)

Section FoldUnion.
Context {A : Type}.
Variable step : gset string -> A -> gset string.
Variable one : A -> gset string.
Hypothesis step_one : forall links a, step links a = one a ∪ links.

Lemma elem_of_foldl_union (l : list A) (init : gset string) (x : string) :
  x ∈ foldl step init l <-> x ∈ init \/ exists a, a ∈ l /\ x ∈ one a.
Proof.
  revert init. induction l as [|a l IH]; intros init; simpl.
  - split; [auto | intros [Hx | (a & Ha & _)]; [done | inversion Ha]].
  - rewrite IH, step_one, elem_of_union. split.
    + intros [[Hx | Hx] | (b & Hb & Hx)]; [right; exists a | by left | right; exists b];
        rewrite elem_of_cons; auto.
    + intros [Hx | (b & Hb & Hx)]; [auto |].
      apply elem_of_cons in Hb as [-> | Hb]; eauto.
Qed.

Lemma foldl_union_init (l : list A) (init : gset string) :
  foldl step init l = foldl step ∅ l ∪ init.
Proof.
  apply set_eq. intros x.
  rewrite elem_of_union, !elem_of_foldl_union. set_solver.
Qed.

End FoldUnion.

(** ** The extractors *)

Section ExtractorFacts.
Context `{PyLib}.
Import PyStr UrlParse Extract.

Lemma elem_of_resolved decode accept base_url candidates x :
  x ∈ resolved decode accept base_url candidates
  <-> exists c, c ∈ candidates /\ x = urljoin base_url (decode c) /\ accept x = true.
Proof.
  unfold resolved. rewrite elem_of_list_to_set, list_elem_of_In, filter_In.
  rewrite <- list_elem_of_In, list_elem_of_fmap. naive_solver.
Qed.

Lemma elem_of_attribute_scan attrs soup c :
  c ∈ attribute_scan attrs soup
  <-> exists tag attr, tag ∈ soup_tags soup /\ attr ∈ attrs
                       /\ tag_attrs tag !! attr = Some c /\ c <> "".
Proof.
  unfold attribute_scan. rewrite list_elem_of_In, in_flat_map. split.
  - intros (tag & Htag & Hc). apply in_flat_map in Hc as (attr & Hattr & Hc).
    exists tag, attr. rewrite !list_elem_of_In. repeat split; try done.
    + destruct (tag_attrs tag !! attr) as [d|]; [|inversion Hc].
      destruct d; simpl in Hc; [inversion Hc |].
      destruct Hc as [-> | []]. done.
    + intros ->. destruct (tag_attrs tag !! attr) as [d|]; [|inversion Hc].
      destruct d; simpl in Hc; [inversion Hc | destruct Hc as [? | []]; done].
  - intros (tag & attr & Htag & Hattr & Hc & Hne).
    exists tag. rewrite <- list_elem_of_In. split; [done |].
    apply in_flat_map. exists attr. rewrite <- list_elem_of_In. split; [done |].
    rewrite Hc. destruct c; [done | simpl; auto].
Qed.

Lemma add_link_union base_url full_url links :
  WBSLSCv4.add_link base_url full_url links
  = (if in_scope base_url full_url then {[full_url]} else ∅) ∪ links.
Proof.
  unfold WBSLSCv4.add_link, in_scope.
  destruct (startswith full_url "file://"); simpl; [done |].
  destruct (_ && _)%bool; [done | set_solver].
Qed.

(** The attribute loop of both programs, for any way [add] of adding the
    candidate [c] that contributes the set [contrib c]. *)
Lemma elem_of_attr_loop (attrs : list string) (soup : Soup)
    (add : string -> gset string -> gset string) (contrib : string -> gset string) :
  (forall c links, add c links = contrib c ∪ links) ->
  forall links x,
    x ∈ foldl (fun links tag =>
                 foldl (fun links attr =>
                          match tag_attrs tag !! attr with
                          | Some c => if truthy c then add c links else links
                          | None => links
                          end) links attrs) links (soup_tags soup)
    <-> x ∈ links \/ exists c, c ∈ attribute_scan attrs soup /\ x ∈ contrib c.
Proof.
  intros Hadd links x.
  set (one_attr := fun (tag : Tag) (attr : string) =>
         match tag_attrs tag !! attr with
         | Some c => if truthy c then contrib c else ∅
         | None => ∅
         end).
  assert (Hinner : forall tag links attr,
             match tag_attrs tag !! attr with
             | Some c => if truthy c then add c links else links
             | None => links
             end = one_attr tag attr ∪ links).
  { intros tag l attr. unfold one_attr.
    destruct (tag_attrs tag !! attr) as [c|]; [| set_solver].
    destruct (truthy c); [apply Hadd | set_solver]. }
  rewrite (elem_of_foldl_union _ (fun tag => foldl (fun links attr =>
             match tag_attrs tag !! attr with
             | Some c => if truthy c then add c links else links
             | None => links
             end) ∅ attrs)).
  2:{ intros l tag. apply (foldl_union_init _ (one_attr tag)). apply Hinner. }
  apply or_iff_compat_l. split.
  - intros (tag & Htag & Hx).
    apply (elem_of_foldl_union _ (one_attr tag) (Hinner tag)) in Hx
      as [Hx | (attr & Hattr & Hx)]; [set_solver |].
    unfold one_attr in Hx.
    destruct (tag_attrs tag !! attr) as [c|] eqn:Hc; [| set_solver].
    destruct (truthy c) eqn:Ht; [| set_solver].
    exists c. split; [| done]. apply elem_of_attribute_scan.
    exists tag, attr. repeat split; try done. by intros ->.
  - intros (c & Hc & Hx).
    apply elem_of_attribute_scan in Hc as (tag & attr & Htag & Hattr & Hc & Hne).
    exists tag. split; [done |].
    apply (elem_of_foldl_union _ (one_attr tag) (Hinner tag)).
    right. exists attr. split; [done |]. unfold one_attr. rewrite Hc.
    destruct c; [done | done].
Qed.

(** *** The crawler's extractor *)

Lemma elem_of_singleton_if (b : bool) (x y : string) :
  x ∈ (if b then {[y]} else ∅ : gset string) <-> x = y /\ b = true.
Proof. destruct b; set_solver. Qed.

Lemma tree_scan_attrs soup base_url links :
  WBSLSCv4.scan_attrs soup base_url links
  = resolved id (in_scope base_url) base_url
      (attribute_scan WBSLSCv4.url_attrs soup) ∪ links.
Proof.
  apply set_eq. intros x. unfold WBSLSCv4.scan_attrs.
  rewrite (elem_of_attr_loop _ _
             (fun c links => WBSLSCv4.add_link base_url (urljoin base_url c) links)
             (fun c => if in_scope base_url (urljoin base_url c)
                       then {[urljoin base_url c]} else ∅)).
  2:{ intros. apply add_link_union. }
  rewrite elem_of_union, elem_of_resolved.
  setoid_rewrite elem_of_singleton_if. unfold id. naive_solver.
Qed.

Lemma tree_scan_meta soup base_url links :
  WBSLSCv4.scan_meta soup base_url links
  = resolved id (in_scope base_url) base_url (meta_refresh_scan soup) ∪ links.
Proof.
  apply set_eq. intros x. unfold WBSLSCv4.scan_meta.
  rewrite (elem_of_foldl_union _
             (fun meta =>
                match Re.search_url_param (default "" (tag_attrs meta !! "content")) with
                | Some g =>
                    if in_scope base_url (urljoin base_url (strip_quotes (strip g)))
                    then {[urljoin base_url (strip_quotes (strip g))]} else ∅
                | None => ∅
                end)).
  2:{ intros l meta. simpl. destruct (Re.search_url_param _); [| set_solver].
      apply add_link_union. }
  rewrite elem_of_union, elem_of_resolved. unfold meta_refresh_scan, id.
  setoid_rewrite list_elem_of_omap. split.
  - intros [Hx | (meta & Hmeta & Hx)]; [by right |]. left.
    destruct (Re.search_url_param _) as [g|] eqn:Hg; [| set_solver].
    apply elem_of_singleton_if in Hx as [-> Hin].
    exists (strip_quotes (strip g)). split; [| done].
    exists meta. split; [done |]. by rewrite Hg.
  - intros [(c & (meta & Hmeta & Hc) & -> & Hin) | Hx]; [| by left]. right.
    exists meta. split; [done |].
    destruct (Re.search_url_param _) as [g|]; [| done].
    simpl in Hc. injection Hc as <-. apply elem_of_singleton_if. done.
Qed.

Lemma tree_scan_css html_content base_url links :
  WBSLSCv4.scan_css html_content base_url links
  = resolved id (in_scope base_url) base_url (inline_css_scan html_content) ∪ links.
Proof.
  apply set_eq. intros x. unfold WBSLSCv4.scan_css.
  rewrite (elem_of_foldl_union _
             (fun c => if in_scope base_url (urljoin base_url (strip_quotes (strip c)))
                       then {[urljoin base_url (strip_quotes (strip c))]} else ∅)).
  2:{ intros. apply add_link_union. }
  rewrite elem_of_union, elem_of_resolved. unfold inline_css_scan, id.
  setoid_rewrite list_elem_of_fmap. setoid_rewrite elem_of_singleton_if.
  naive_solver.
Qed.

Lemma tree_scan_regex html_content base_url links :
  WBSLSCv4.scan_regex html_content base_url links
  = resolved id (in_scope base_url) base_url (raw_text_scan html_content) ∪ links.
Proof.
  apply set_eq. intros x. unfold WBSLSCv4.scan_regex.
  rewrite (elem_of_foldl_union _
             (fun c => if in_scope base_url (urljoin base_url c)
                       then {[urljoin base_url c]} else ∅)).
  2:{ intros. apply add_link_union. }
  rewrite elem_of_union, elem_of_resolved. unfold raw_text_scan, id.
  setoid_rewrite elem_of_singleton_if. naive_solver.
Qed.

Lemma tree_get_all_links_union html_content base_url :
  WBSLSCv4.get_all_links html_content base_url
  = spec_extract WBSLSCv4.url_attrs id (in_scope base_url) html_content base_url.
Proof.
  unfold WBSLSCv4.get_all_links, spec_extract.
  rewrite tree_scan_regex, tree_scan_css, tree_scan_meta, tree_scan_attrs.
  set_solver.
Qed.

(** *** The scanner's extractor *)




End ExtractorFacts.

(** ** Validity of a URL (C1) *)

Section Validity.
Context `{PyLib}.
Import PyStr UrlParse Extract.

Lemma truthy_true (s : string) : truthy s = true <-> s <> "".
Proof. destruct s; simpl; split; congruence. Qed.



End Validity.


(** ** Entities and strategies (C2, C7) *)

Section ExtractorClaims.
Context `{PyLib}.
Import PyStr UrlParse Extract.



End ExtractorClaims.



(** ** The tree builder (C3, C4, C5, C10) *)

Section Trees.
Import WBSLSCv4.

Lemma elem_of_nodes (t n : TreeNode) :
  n ∈ nodes t <-> n = t \/ exists c, c ∈ node_children t /\ n ∈ nodes c.
Proof.
  destruct t as [u ti l cs]. simpl. rewrite elem_of_cons.
  apply or_iff_compat_l. rewrite list_elem_of_In, in_flat_map.
  setoid_rewrite list_elem_of_In. reflexivity.
Qed.

Lemma root_in_nodes (t : TreeNode) : t ∈ nodes t.
Proof. apply elem_of_nodes. by left. Qed.

Lemma obeys_scope_node follows url title links children :
  obeys_scope follows (mkNode url title links children)
  <-> forall c, c ∈ children ->
                follows url (node_url c) = true /\ obeys_scope follows c.
Proof.
  unfold obeys_scope. split.
  - intros Hs c Hc. split.
    + apply (Hs (mkNode url title links children) c); [apply root_in_nodes | done].
    + intros n d Hn Hd. apply Hs; [| done].
      apply elem_of_nodes. right. exists c. done.
  - intros Hs n c Hn Hc. apply elem_of_nodes in Hn as [-> | (d & Hd & Hn)].
    + apply Hs. exact Hc.
    + destruct (Hs d Hd) as [_ Hsd]. by apply Hsd.
Qed.

Lemma obeys_scope_leaf follows url title links :
  obeys_scope follows (mkNode url title links []).
Proof. apply obeys_scope_node. intros c Hc. inversion Hc. Qed.

(** Below a node that only leads to nodes with property [P], when [P] is
    kept along every edge. *)
Lemma obeys_scope_closed follows (P : string -> Prop) :
  (forall u v, P u -> follows u v = true -> P v) ->
  forall t, obeys_scope follows t -> P (node_url t) ->
            forall n, n ∈ nodes t -> P (node_url n).
Proof.
  intros Hstep t. induction t as [u ti l cs IH] using TreeNode_forall_ind.
  intros Hs Hroot n Hn. simpl in Hroot.
  apply elem_of_nodes in Hn as [-> | (c & Hc & Hn)]; [done |].
  simpl in Hc. rewrite obeys_scope_node in Hs. destruct (Hs c Hc) as [Hf Hsc].
  rewrite Forall_forall in IH. apply (IH c); eauto.
Qed.

End Trees.

Section TreeBuilder.
Context `{PyLib} `{World}.
Import PyStr UrlParse WBSLSCv4.

Lemma scrape_page_url url page_data :
  scrape_page url = Some page_data -> page_url page_data = url.
Proof.
  unfold scrape_page. cbv zeta.
  destruct (if startswith url "file://" then _ else _); [| done].
  intros [= <-]. reflexivity.
Qed.

(** *** One traversal scrapes no URL twice *)

Lemma scraped_app l1 l2 : scraped (l1 ++ l2) = scraped l1 ++ scraped l2.
Proof. apply omap_app. Qed.

Lemma scrapes_once_refl st : scrapes_once st st.
Proof.
  exists []. rewrite app_nil_r. simpl. repeat split.
  - constructor.
  - intros u Hu. inversion Hu.
  - set_solver.
Qed.

Lemma scrapes_once_trans st1 st2 st3 :
  scrapes_once st1 st2 -> scrapes_once st2 st3 -> scrapes_once st1 st3.
Proof.
  intros (new1 & Hl1 & Hd1 & Hf1 & Hv1) (new2 & Hl2 & Hd2 & Hf2 & Hv2).
  exists (new1 ++ new2). rewrite scraped_app. repeat split.
  - by rewrite Hl2, Hl1, app_assoc.
  - apply NoDup_app. repeat split; [done | | done].
    intros u Hu1 Hu2. apply (Hf2 u Hu2). rewrite Hv1. set_solver.
  - intros u Hu. apply elem_of_app in Hu as [Hu | Hu]; [by apply Hf1 |].
    intros Hin. apply (Hf2 u Hu). rewrite Hv1. set_solver.
  - rewrite Hv2, Hv1, list_to_set_app_L. set_solver.
Qed.

Lemma scrapes_once_visit url st :
  url ∉ visited st ->
  scrapes_once st (mkCrawl ({[url]} ∪ visited st) (log st ++ [Scrape url])).
Proof.
  intros Hnew. exists [Scrape url]. simpl. repeat split.
  - apply NoDup_singleton.
  - intros u Hu. apply list_elem_of_singleton in Hu as ->. done.
  - set_solver.
Qed.

Lemma visit_links_scrapes_once rec url base_domain :
  (forall link st r st', rec link st = Some (r, st') -> scrapes_once st st') ->
  forall links children st children' st',
    visit_links rec url base_domain links children st = Some (children', st') ->
    scrapes_once st st'.
Proof.
  intros Hrec links. induction links as [|link rest IH]; intros children st children' st'; simpl.
  - intros [= _ <-]. apply scrapes_once_refl.
  - destruct (follows url base_domain link); [| apply IH].
    destruct (rec link st) as [[child st1]|] eqn:Hcall; [| done].
    intros Hrest. eapply scrapes_once_trans; [eapply Hrec, Hcall | eapply IH, Hrest].
Qed.

Lemma build_tree_fuel_scrapes_once fuel :
  forall url base_domain max_depth st r st',
    build_tree_fuel fuel url base_domain max_depth st = Some (r, st') ->
    scrapes_once st st'.
Proof.
  induction fuel as [|fuel IH]; intros url base_domain max_depth st r st'; simpl; [done |].
  destruct (decide (url ∈ visited st)) as [Hin | Hnew].
  { intros [= _ <-]. apply scrapes_once_refl. }
  pose proof (scrapes_once_visit url st Hnew) as Hstep.
  destruct (scrape_page url) as [page_data|].
  2:{ intros [= _ <-]. exact Hstep. }
  destruct (0 <? max_depth).
  2:{ intros [= _ <-]. exact Hstep. }
  destruct (visit_links _ _ _ _ _ _) as [[children st1]|] eqn:Hloop; [| done].
  intros [= _ <-]. eapply scrapes_once_trans; [exact Hstep |].
  eapply visit_links_scrapes_once; [| exact Hloop].
  intros link st2 r2 st2'. apply IH.
Qed.

(** *** The traversal ends *)

Lemma visit_links_total rec url base_domain :
  (forall link st, is_Some (rec link st)) ->
  forall links children st,
    is_Some (visit_links rec url base_domain links children st).
Proof.
  intros Hrec links. induction links as [|link rest IH]; intros children st; simpl.
  - eauto.
  - destruct (follows url base_domain link); [| apply IH].
    destruct (Hrec link st) as [[child st1] ->]. apply IH.
Qed.

Lemma build_tree_fuel_total fuel :
  forall url base_domain max_depth st,
    (Z.to_nat max_depth < fuel)%nat ->
    is_Some (build_tree_fuel fuel url base_domain max_depth st).
Proof.
  induction fuel as [|fuel IH]; intros url base_domain max_depth st Hfuel; [lia |].
  simpl. destruct (decide (url ∈ visited st)); [eauto |].
  destruct (scrape_page url) as [page_data|]; [| eauto].
  destruct (0 <? max_depth) eqn:Hdepth; [| eauto].
  apply Z.ltb_lt in Hdepth.
  destruct (visit_links_total
              (fun link st => build_tree_fuel fuel link base_domain (max_depth - 1) st)
              url base_domain) with
    (links := set_iter (page_links page_data)) (children := @nil TreeNode)
    (st := mkCrawl ({[url]} ∪ visited st) (log st ++ [Scrape url]))
    as [[children st1] Hloop].
  { intros link st2. apply IH. lia. }
  rewrite Hloop. eauto.
Qed.

Lemma build_tree_total url base_domain max_depth st :
  is_Some (build_tree url base_domain max_depth st).
Proof. apply build_tree_fuel_total. lia. Qed.

(** More fuel than the depth needs changes nothing. *)
Lemma visit_links_ext rec1 rec2 url base_domain :
  (forall link st r, rec1 link st = Some r -> rec2 link st = Some r) ->
  forall links children st r,
    visit_links rec1 url base_domain links children st = Some r ->
    visit_links rec2 url base_domain links children st = Some r.
Proof.
  intros Hrec links. induction links as [|link rest IH]; intros children st r; simpl; [done |].
  destruct (follows url base_domain link); [| apply IH].
  destruct (rec1 link st) as [[child st1]|] eqn:Hcall; [| done].
  rewrite (Hrec _ _ _ Hcall). apply IH.
Qed.

Lemma build_tree_fuel_mono fuel :
  forall url base_domain max_depth st r,
    build_tree_fuel fuel url base_domain max_depth st = Some r ->
    build_tree_fuel (S fuel) url base_domain max_depth st = Some r.
Proof.
  induction fuel as [|fuel IH]; intros url base_domain max_depth st r; [done |].
  intros Hrun. simpl in Hrun. change (build_tree_fuel (S (S fuel)) url base_domain max_depth st)
    with (if decide (url ∈ visited st) then Some (None, st)
          else
            let st := mkCrawl ({[url]} ∪ visited st) (log st ++ [Scrape url]) in
            match scrape_page url with
            | None => Some (None, st)
            | Some page_data =>
                let url' := page_url page_data in
                let title := page_title page_data in
                let links := sorted (set_iter (page_links page_data)) in
                if 0 <? max_depth then
                  match visit_links
                          (fun link st =>
                             build_tree_fuel (S fuel) link base_domain (max_depth - 1) st)
                          url base_domain (set_iter (page_links page_data)) [] st
                  with
                  | Some (children, st') =>
                      Some (Some (mkNode url' title links children), st')
                  | None => None
                  end
                else Some (Some (mkNode url' title links []), st)
            end).
  destruct (decide (url ∈ visited st)); [done |]. cbv zeta in *.
  destruct (scrape_page url) as [page_data|]; [| done].
  destruct (0 <? max_depth); [| done].
  destruct (visit_links _ _ _ _ _ _) as [[children st1]|] eqn:Hloop; [| done].
  rewrite (visit_links_ext _
             (fun link st => build_tree_fuel (S fuel) link base_domain (max_depth - 1) st)
             _ _ (fun link st2 r2 => IH link base_domain (max_depth - 1) st2 r2)
             _ _ _ _ Hloop).
  exact Hrun.
Qed.

(** Any bound above the depth gives the result of [build_tree]. *)
Lemma build_tree_fuel_enough fuel url base_domain max_depth st :
  (Z.to_nat max_depth < fuel)%nat ->
  build_tree_fuel fuel url base_domain max_depth st
  = build_tree url base_domain max_depth st.
Proof.
  intros Hfuel. destruct (build_tree_total url base_domain max_depth st) as [r Hr].
  rewrite Hr. unfold build_tree in Hr.
  induction Hfuel as [| fuel' Hle IH]; [done |].
  by apply build_tree_fuel_mono.
Qed.

(** *** What the first call does *)

Lemma build_tree_visited url base_domain max_depth st :
  url ∈ visited st ->
  build_tree url base_domain max_depth st = Some (None, st).
Proof.
  intros Hin. unfold build_tree. simpl.
  destruct (decide (url ∈ visited st)); done.
Qed.

Lemma build_tree_fresh url base_domain max_depth st r st' :
  url ∉ visited st ->
  build_tree url base_domain max_depth st = Some (r, st') ->
  scrapes_once (mkCrawl ({[url]} ∪ visited st) (log st ++ [Scrape url])) st'.
Proof.
  intros Hnew. unfold build_tree. simpl.
  destruct (decide (url ∈ visited st)); [done |].
  destruct (scrape_page url) as [page_data|].
  2:{ intros [= _ <-]. apply scrapes_once_refl. }
  destruct (0 <? max_depth).
  2:{ intros [= _ <-]. apply scrapes_once_refl. }
  destruct (visit_links _ _ _ _ _ _) as [[children st1]|] eqn:Hloop; [| done].
  intros [= _ <-]. eapply visit_links_scrapes_once; [| exact Hloop].
  intros link st2 r2 st2'. apply build_tree_fuel_scrapes_once.
Qed.

Lemma build_tree_no_recursion url base_domain max_depth st page_data :
  max_depth <= 0 -> url ∉ visited st -> scrape_page url = Some page_data ->
  build_tree url base_domain max_depth st
  = Some (Some (mkNode url (page_title page_data)
                  (sorted (set_iter (page_links page_data))) []),
          mkCrawl ({[url]} ∪ visited st) (log st ++ [Scrape url])).
Proof.
  intros Hdepth Hnew Hpage. unfold build_tree. simpl.
  destruct (decide (url ∈ visited st)); [done |].
  rewrite Hpage, (scrape_page_url _ _ Hpage).
  destruct (0 <? max_depth) eqn:Hpos; [apply Z.ltb_lt in Hpos; lia | done].
Qed.

(** *** The scope of a traversal *)

Lemma visit_links_scope rec url base_domain :
  (forall link st c st',
      rec link st = Some (Some c, st') ->
      node_url c = link /\ obeys_scope (fun u v => follows u base_domain v) c) ->
  forall links children st children' st',
    (forall c, c ∈ children ->
               follows url base_domain (node_url c) = true
               /\ obeys_scope (fun u v => follows u base_domain v) c) ->
    visit_links rec url base_domain links children st = Some (children', st') ->
    forall c, c ∈ children' ->
              follows url base_domain (node_url c) = true
              /\ obeys_scope (fun u v => follows u base_domain v) c.
Proof.
  intros Hrec links.
  induction links as [|link rest IH]; intros children st children' st' Hinv; simpl.
  - intros [= <- _]. exact Hinv.
  - destruct (follows url base_domain link) eqn:Hfollow; [| by apply IH].
    destruct (rec link st) as [[[child|] st1]|] eqn:Hcall; [| by apply IH | done].
    apply IH. intros c Hc. apply elem_of_app in Hc as [Hc | Hc]; [by apply Hinv |].
    apply list_elem_of_singleton in Hc as ->.
    destruct (Hrec _ _ _ _ Hcall) as [-> Hscope]. done.
Qed.

Lemma build_tree_fuel_scope fuel :
  forall url base_domain max_depth st t st',
    build_tree_fuel fuel url base_domain max_depth st = Some (Some t, st') ->
    node_url t = url /\ obeys_scope (fun u v => follows u base_domain v) t.
Proof.
  induction fuel as [|fuel IH]; intros url base_domain max_depth st t st'; simpl; [done |].
  destruct (decide (url ∈ visited st)); [done |].
  destruct (scrape_page url) as [page_data|] eqn:Hpage; [| done].
  rewrite (scrape_page_url _ _ Hpage).
  destruct (0 <? max_depth).
  2:{ intros [= <- _]. split; [done | apply obeys_scope_leaf]. }
  destruct (visit_links _ _ _ _ _ _) as [[children st1]|] eqn:Hloop; [| done].
  intros [= <- _]. split; [done |]. apply obeys_scope_node.
  eapply visit_links_scope; [| | exact Hloop].
  - intros link st2 c st2'. apply IH.
  - intros c Hc. inversion Hc.
Qed.

Lemma follows_keeps_file base_domain u v :
  startswith u "file://" = true -> follows u base_domain v = true ->
  startswith v "file://" = true.
Proof. unfold follows. by intros ->. Qed.

Lemma follows_keeps_host_or_file base_domain u v :
  startswith u "file://" = true \/ netloc (urlparse u) = base_domain ->
  follows u base_domain v = true ->
  startswith v "file://" = true \/ netloc (urlparse v) = base_domain.
Proof.
  unfold follows. intros Hu. destruct (startswith u "file://"); [by left |].
  intros Heq. right. by apply String.eqb_eq.
Qed.

End TreeBuilder.

(** ** Sorting the links of a node *)

Lemma sorted_StronglySorted (l : list string) : StronglySorted String.le (sorted l).
Proof. apply StronglySorted_merge_sort; apply _. Qed.

Lemma sorted_Permutation (l : list string) : sorted l ≡ₚ l.
Proof. apply merge_sort_Permutation. Qed.

(** ** Reading the depth *)

Section ReadDepth.
Import PyStr UrlParse.

Lemma rev_string_twice (s a b : string) :
  rev_string a (rev_string b s) = rev_string (s +:+ a) b.
Proof.
  revert a b. induction s as [|c s IH]; intros a b; simpl; [done |].
  by rewrite IH.
Qed.

Lemma all_chars_rev_string q (s acc : string) :
  all_chars q (rev_string acc s) = (all_chars q s && all_chars q acc)%bool.
Proof.
  revert acc. induction s as [|c s IH]; intros acc; simpl; [done |].
  rewrite IH. simpl. destruct (q c), (all_chars q s), (all_chars q acc); done.
Qed.

Lemma lstrip_by_none p (s : string) :
  all_chars (fun c => negb (p c)) s = true -> lstrip_by p s = s.
Proof.
  destruct s as [|c s]; simpl; [done |].
  destruct (p c); simpl; [done | done].
Qed.

Lemma string_app_empty (s : string) : s +:+ "" = s.
Proof.
  induction s as [|c s IH]; [done |].
  change (String c (s +:+ "") = String c s). by rewrite IH.
Qed.

Lemma strip_by_none p (s : string) :
  all_chars (fun c => negb (p c)) s = true -> strip_by p s = s.
Proof.
  intros Hs. unfold strip_by, rstrip_by. rewrite (lstrip_by_none p s Hs).
  rewrite lstrip_by_none.
  - rewrite rev_string_twice. simpl. apply string_app_empty.
  - rewrite all_chars_rev_string, Hs. done.
Qed.

Lemma digit_not_space (c : ascii) : is_digit c = true -> is_space c = false.
Proof.
  unfold is_digit, is_space, in_range. intros Hd.
  apply andb_true_iff in Hd as [Hlo Hhi].
  apply Nat.leb_le in Hlo. apply Nat.leb_le in Hhi.
  repeat (apply orb_false_iff; split);
    first [ apply andb_false_iff; right; apply Nat.leb_gt; lia
          | apply Nat.eqb_neq; lia ].
Qed.

Lemma int_space_is_space (c : ascii) : Re.int_space c = true -> is_space c = true.
Proof.
  unfold Re.int_space, is_space, in_range.
  rewrite !orb_true_iff, !andb_true_iff, !Nat.leb_le, !Nat.eqb_eq.
  intros [[[Hc | Hc] | Hc] | Hc]; auto.
  left. left. right. lia.
Qed.

Lemma not_space_not_int_space (s : string) :
  all_chars (fun c => negb (is_space c)) s = true ->
  all_chars (fun c => negb (Re.int_space c)) s = true.
Proof.
  induction s as [|c s IH]; simpl; [done |].
  intros Hs. apply andb_true_iff in Hs as [Hc Hs]. rewrite (IH Hs), andb_true_r.
  destruct (Re.int_space c) eqn:Hi; [| done].
  apply int_space_is_space in Hi. by rewrite Hi in Hc.
Qed.

Lemma count_digits_all (ds : string) :
  all_chars is_digit ds = true -> Re.count_digits ds = String.length ds.
Proof.
  induction ds as [|c ds IH]; simpl; [done |].
  intros Hd. apply andb_true_iff in Hd as [-> Hds]. by rewrite IH.
Qed.


Lemma digits_not_space (ds : string) :
  all_chars is_digit ds = true ->
  all_chars (fun c => negb (is_space c)) ds = true.
Proof.
  induction ds as [|c ds IH]; simpl; [done |].
  intros Hd. apply andb_true_iff in Hd as [Hc Hds].
  rewrite (digit_not_space c Hc), IH; done.
Qed.



End ReadDepth.

(** ** The claims about the tree builder *)

Section TreeBuilderClaims.
Context `{PyLib} `{World}.
Import PyStr UrlParse WBSLSCv4.

(** C3: one traversal with a shared visited set scrapes each URL at most
    once.  [build_tree] always returns; for a URL that is already in the
    visited set it returns no node and leaves the state as it is; otherwise
    the URL is in the visited set before its page is scraped, and that
    scrape is the first thing the call does.  The URLs the traversal
    scrapes are pairwise distinct, none of them was in the visited set at
    the start, and they are exactly what the traversal adds to the set; so
    when everything scraped before was in the visited set, no URL is scraped
    twice in the whole log, whatever the links between the pages are. *)
Theorem build_tree_scrapes_each_url_once url base_domain max_depth st :
  exists r st',
    build_tree url base_domain max_depth st = Some (r, st')
    /\ (url ∈ visited st -> r = None /\ st' = st)
    /\ (url ∉ visited st ->
        url ∈ visited st'
        /\ exists rest, log st' = log st ++ Scrape url :: rest)
    /\ (exists new,
           log st' = log st ++ new
           /\ NoDup (scraped new)
           /\ (forall u, u ∈ scraped new -> u ∉ visited st)
           /\ visited st' = visited st ∪ list_to_set (scraped new))
    /\ ((forall u, u ∈ scraped (log st) -> u ∈ visited st) ->
        NoDup (scraped (log st)) -> NoDup (scraped (log st'))).
Proof.
  destruct (build_tree_total url base_domain max_depth st) as [[r st'] Hrun].
  exists r, st'. split; [done |].
  pose proof (build_tree_fuel_scrapes_once _ _ _ _ _ _ _ Hrun) as Honce.
  split; [| split; [| split; [exact Honce |]]].
  - intros Hin. rewrite (build_tree_visited _ _ _ _ Hin) in Hrun.
    by injection Hrun as <- <-.
  - intros Hnew.
    destruct (build_tree_fresh _ _ _ _ _ _ Hnew Hrun) as (rest & Hlog & _ & _ & Hvis).
    simpl in Hlog, Hvis. split; [rewrite Hvis; set_solver |].
    exists rest. by rewrite Hlog, <- app_assoc.
  - intros Hlogged Hdistinct. destruct Honce as (new & Hlog & Hd & Hfresh & _).
    rewrite Hlog, scraped_app. apply NoDup_app. repeat split; [done | | done].
    intros u Hu Hu'. apply (Hfresh u Hu'). by apply Hlogged.
Qed.

(** C4, amended: every edge of the tree passed the test of the node it
    leaves, so a tree rooted at a [file://] URL holds [file://] URLs only,
    and in a tree rooted at a network URL whose host is the base domain
    every node that is not a [file://] URL has exactly the host of the
    root.  A network-rooted tree can hold [file://] nodes: a [file://] link
    with the host of the root is followed, and below it the file rule
    applies. *)
Theorem traversal_scope url base_domain max_depth st t st' :
  build_tree url base_domain max_depth st = Some (Some t, st') ->
  node_url t = url
  /\ (forall n c, n ∈ nodes t -> c ∈ node_children n ->
                  follows (node_url n) base_domain (node_url c) = true)
  /\ (startswith url "file://" = true ->
      forall n, n ∈ nodes t -> startswith (node_url n) "file://" = true)
  /\ (startswith url "file://" = false -> netloc (urlparse url) = base_domain ->
      forall n, n ∈ nodes t ->
                startswith (node_url n) "file://" = false ->
                netloc (urlparse (node_url n)) = netloc (urlparse url)).
Proof.
  intros Hrun. destruct (build_tree_fuel_scope _ _ _ _ _ _ _ Hrun) as [Hroot Hscope].
  split; [done |]. split; [exact Hscope |]. split.
  - intros Hfile n Hn.
    apply (obeys_scope_closed _ (fun u => startswith u "file://" = true)
             (follows_keeps_file base_domain) t Hscope); [by rewrite Hroot | done].
  - intros Hnet Hhost n Hn Hnotfile.
    destruct (obeys_scope_closed _
                (fun u => startswith u "file://" = true
                          \/ netloc (urlparse u) = base_domain)
                (follows_keeps_host_or_file base_domain) t Hscope) with (n := n)
      as [Hf | Hh]; [rewrite Hroot; by right | done | congruence | congruence].
Qed.

(** C5: with depth 0, a URL that is not yet visited and whose page is
    scraped gives exactly one node, without children, whatever the links of
    the page; the node has the URL and the title of the page and the sorted
    list of its links, and the page is the only one scraped. *)
Theorem depth_zero_single_node url base_domain st page_data :
  url ∉ visited st -> scrape_page url = Some page_data ->
  exists t,
    build_tree url base_domain 0 st
    = Some (Some t, mkCrawl ({[url]} ∪ visited st) (log st ++ [Scrape url]))
    /\ node_children t = []
    /\ nodes t = [t]
    /\ node_url t = url
    /\ node_title t = page_title page_data
    /\ node_links t = sorted (set_iter (page_links page_data))
    /\ StronglySorted String.le (node_links t)
    /\ node_links t ≡ₚ elements (page_links page_data).
Proof.
  intros Hnew Hpage. eexists. split.
  - apply build_tree_no_recursion; [lia | done | done].
  - simpl. repeat split; try done.
    + apply sorted_StronglySorted.
    + rewrite sorted_Permutation. apply set_iter_perm.
Qed.


End TreeBuilderClaims.

(** The crawl of the fixture from [http://h/] with depth 2. *)
Lemma fixture_crawl :
  exists st',
    WBSLSCv4.crawl "http://h/" 2
    = Some (Some (WBSLSCv4.mkNode "http://h/" ""
                    ["file://h/a.html"; "http://h/b"]
                    [WBSLSCv4.mkNode "file://h/a.html" "" ["file://other/b.html"]
                       [WBSLSCv4.mkNode "file://other/b.html" "" [] []];
                     WBSLSCv4.mkNode "http://h/b" "B"
                       ["http://h/"; "http://h/a&#x2B;b"] []]),
            st')
    /\ WBSLSCv4.log st'
       = [Scrape "http://h/"; Scrape "file://h/a.html";
          Scrape "file://other/b.html"; Scrape "http://h/b";
          Scrape "http://h/a&#x2B;b"].
Proof. eexists. split; vm_compute; reflexivity. Qed.

(** C4, as stated, fails: the crawl of the fixture starts at a network URL
    with host [h]; the page links to [file://h/a.html], whose host is [h],
    and that file links to [file://other/b.html], which becomes a node of
    the tree although its host is not the host of the root. *)
Lemma network_tree_reaches_other_host :
  exists t st' n,
    WBSLSCv4.crawl "http://h/" 2 = Some (Some t, st')
    /\ PyStr.startswith "http://h/" "file://" = false
    /\ WBSLSCv4.base_domain_of "http://h/" = "h"
    /\ n ∈ WBSLSCv4.nodes t
    /\ WBSLSCv4.node_url n = "file://other/b.html"
    /\ UrlParse.netloc (UrlParse.urlparse (WBSLSCv4.node_url n)) = "other"
    /\ UrlParse.netloc (UrlParse.urlparse (WBSLSCv4.node_url n))
       <> UrlParse.netloc (UrlParse.urlparse "http://h/").
Proof.
  eexists _, _, (WBSLSCv4.mkNode "file://other/b.html" "" [] []).
  split; [vm_compute; reflexivity |].
  split; [reflexivity |]. split; [vm_compute; reflexivity |].
  split; [simpl; rewrite !elem_of_cons; auto |].
  split; [reflexivity |]. split; [vm_compute; reflexivity |].
  vm_compute. discriminate.
Qed.

Lemma traversal_scope_witness :
  exists t st',
    WBSLSCv4.build_tree "http://h/" "h" 2 (WBSLSCv4.mkCrawl ∅ []) = Some (Some t, st')
    /\ WBSLSCv4.node_url t = "http://h/"
    /\ forall n c, n ∈ WBSLSCv4.nodes t -> c ∈ WBSLSCv4.node_children n ->
                   WBSLSCv4.follows (WBSLSCv4.node_url n) "h" (WBSLSCv4.node_url c) = true.
Proof.
  assert (Hrun : exists t st',
             WBSLSCv4.build_tree "http://h/" "h" 2 (WBSLSCv4.mkCrawl ∅ [])
             = Some (Some t, st')).
  { eexists _, _. vm_compute. reflexivity. }
  destruct Hrun as (t & st' & Hrun). exists t, st'. split; [exact Hrun |].
  destruct (traversal_scope "http://h/" "h" 2 (WBSLSCv4.mkCrawl ∅ []) t st' Hrun)
    as (Hroot & Hedges & _).
  split; [exact Hroot | exact Hedges].
Defined.

Lemma depth_zero_single_node_witness :
  exists page_data t st',
    ("http://h/" ∉ WBSLSCv4.visited (WBSLSCv4.mkCrawl ∅ []))
    /\ WBSLSCv4.scrape_page "http://h/" = Some page_data
    /\ size (page_links page_data) = 2%nat
    /\ WBSLSCv4.build_tree "http://h/" "h" 0 (WBSLSCv4.mkCrawl ∅ []) = Some (Some t, st')
    /\ WBSLSCv4.node_children t = [].
Proof.
  assert (Hpage : exists page_data,
             WBSLSCv4.scrape_page "http://h/" = Some page_data
             /\ size (page_links page_data) = 2%nat).
  { eexists. split; vm_compute; reflexivity. }
  destruct Hpage as (page_data & Hpage & Hsize).
  assert (Hnew : "http://h/" ∉ WBSLSCv4.visited (WBSLSCv4.mkCrawl ∅ [])).
  { simpl. apply not_elem_of_empty. }
  destruct (depth_zero_single_node "http://h/" "h" (WBSLSCv4.mkCrawl ∅ []) page_data
              Hnew Hpage) as (t & Hrun & Hleaf & _).
  exists page_data, t. eexists.
  split; [exact Hnew |]. split; [exact Hpage |]. split; [exact Hsize |].
  split; [exact Hrun | exact Hleaf].
Defined.


(** ** The link-health scanner (C6, C8, C9) *)

Section Scanner.
Context `{PyLib} `{World}.
Import PyStr UrlParse brokenScraper.

Lemma check_link_spec url :
  check_link url
  = match http_head url with
    | inl code =>
        (Some code,
         if decide (code ∈ ERROR_CODES) then "Status " +:+ pretty code else "")
    | inr e => (None, e)
    end.
Proof.
  unfold check_link. destruct (http_head url) as [code | e]; [| done].
  destruct (decide (code ∈ ERROR_CODES)); done.
Qed.

Lemma status_message_nonempty (code : Z) : "Status " +:+ pretty code <> "".
Proof. discriminate. Qed.

(** What one completed check adds to the records. *)
Lemma record_link_nil url link :
  record_link url [] link
  = match http_head link with
    | inl code =>
        if decide (code ∈ ERROR_CODES)
        then [mkRecord url link code ("Status " +:+ pretty code)] else []
    | inr _ => []
    end.
Proof.
  unfold record_link. rewrite check_link_spec.
  destruct (http_head link) as [code | e]; [| done].
  destruct (decide (code ∈ ERROR_CODES)); done.
Qed.

Lemma record_link_app url records link :
  record_link url records link = records ++ record_link url [] link.
Proof.
  unfold record_link. destruct (check_link link) as [[code|] e].
  - destruct (decide (code ∈ ERROR_CODES)); [done | by rewrite app_nil_r].
  - by rewrite app_nil_r.
Qed.

Lemma foldl_record_link url links :
  forall records,
    foldl (record_link url) records links
    = records ++ flat_map (record_link url []) links.
Proof.
  induction links as [|link rest IH]; intros records; simpl.
  - by rewrite app_nil_r.
  - rewrite IH, record_link_app, <- app_assoc. done.
Qed.

Lemma flat_map_none {A B} (f : A -> list B) (l : list A) :
  (forall y, y ∈ l -> f y = []) -> flat_map f l = [].
Proof.
  induction l as [|a l IH]; intros Hnone; simpl; [done |].
  rewrite (Hnone a), IH; [done | | apply elem_of_cons; by left].
  intros y Hy. apply Hnone. apply elem_of_cons. by right.
Qed.

Lemma flat_map_only {A B} (f : A -> list B) (x : A) (l : list A) :
  NoDup l -> x ∈ l -> (forall y, y ∈ l -> y <> x -> f y = []) ->
  flat_map f l = f x.
Proof.
  induction l as [|a l IH]; intros Hd Hx Hother; [inversion Hx |].
  apply NoDup_cons in Hd as [Ha Hd]. simpl.
  assert (Hrest : forall y, y ∈ l -> y <> x -> f y = []).
  { intros y Hy. apply Hother. apply elem_of_cons. by right. }
  apply elem_of_cons in Hx as [-> | Hx].
  - rewrite flat_map_none; [by rewrite app_nil_r |].
    intros y Hy. apply Hrest; [done |]. by intros ->.
  - rewrite (Hother a); [| apply elem_of_cons; by left | by intros ->].
    simpl. by apply IH.
Qed.

(** The records of a page that was scraped: the record of the page itself,
    when its check gives an error status, then the records of its links. *)
Lemma process_input_url_scraped url page_data :
  scrape_page url = Some page_data ->
  process_input_url url
  = (record_link url [] url
       ++ flat_map (record_link url []) (as_completed (set_iter (page_links page_data))),
     [Scrape url; Head url]
       ++ (Head <$> as_completed (set_iter (page_links page_data)))).
Proof.
  intros Hpage. unfold process_input_url. rewrite Hpage.
  rewrite record_link_nil. rewrite check_link_spec.
  destruct (http_head url) as [code | e].
  - rewrite foldl_record_link. destruct (decide (code ∈ ERROR_CODES)); done.
  - rewrite foldl_record_link. done.
Qed.

Lemma elem_of_completed (links : gset string) (link : string) :
  link ∈ as_completed (set_iter links) <-> link ∈ links.
Proof. by rewrite as_completed_perm, set_iter_perm, elem_of_elements. Qed.

Lemma NoDup_completed (links : gset string) :
  NoDup (as_completed (set_iter links)).
Proof. rewrite as_completed_perm, set_iter_perm. apply NoDup_elements. Qed.

Lemma scrape_page_None url :
  scrape_page url = None
  <-> (startswith url "file://" = true
       /\ (path_exists (url2pathname (path (urlparse url))) = false
           \/ read_file (url2pathname (path (urlparse url))) = None))
      \/ (startswith url "file://" = false
          /\ (http_get url = None
              \/ exists code text, http_get url = Some (code, text) /\ code <> 200)).
Proof.
  unfold scrape_page. cbv zeta. destruct (startswith url "file://").
  - destruct (path_exists _); simpl.
    + destruct (read_file _); naive_solver.
    + naive_solver.
  - destruct (http_get url) as [[code text]|]; [| naive_solver].
    destruct (code =? 200) eqn:Hcode; simpl.
    + apply Z.eqb_eq in Hcode. naive_solver.
    + apply Z.eqb_neq in Hcode. naive_solver.
Qed.

(** C8: on a completed HEAD request [check_link] returns the final status
    code, with the message [Status <code>] exactly when the code is an error
    status and with the empty string otherwise; when the request raises it
    returns no status and the message of the exception. *)
Theorem check_link_result url :
  (forall code, http_head url = inl code ->
     fst (check_link url) = Some code
     /\ (code ∈ ERROR_CODES -> snd (check_link url) = "Status " +:+ pretty code)
     /\ (code ∉ ERROR_CODES -> snd (check_link url) = "")
     /\ (snd (check_link url) = "Status " +:+ pretty code <-> code ∈ ERROR_CODES))
  /\ (forall e, http_head url = inr e -> check_link url = (None, e))
  /\ (404 ∈ ERROR_CODES /\ "Status " +:+ pretty 404 = "Status 404").
Proof.
  rewrite check_link_spec. split; [| split].
  - intros code ->. simpl. split; [done |].
    destruct (decide (code ∈ ERROR_CODES)) as [Hin | Hout].
    + split; [done |]. split; [done |]. split; done.
    + split; [done |]. split; [done |]. split; [| done].
      intros Hmsg. symmetry in Hmsg. by apply status_message_nonempty in Hmsg.
  - by intros e ->.
  - split; [by apply elem_of_singleton | vm_compute; reflexivity].
Qed.

(** C6: for a page that was scraped, a record is in the result exactly
    when it names the page as parent, its broken link is the page itself or
    one of the links of the page, and the check of that link returned a
    status, not null, that is an error status.  So for a page whose own
    check returns 404 and whose three links check as 200, 404 and a
    connection error there are exactly two records, the page and the 404
    link, and none for the link whose check failed. *)
Theorem broken_records url page_data :
  scrape_page url = Some page_data ->
  (forall r,
      r ∈ fst (process_input_url url)
      <-> parent_url r = url
          /\ (broken_link r = url \/ broken_link r ∈ page_links page_data)
          /\ http_head (broken_link r) = inl (status r)
          /\ status r ∈ ERROR_CODES
          /\ error r = "Status " +:+ pretty (status r))
  /\ (forall l_ok l_gone l_down e,
         page_links page_data = {[l_ok; l_gone; l_down]} ->
         http_head url = inl 404 -> http_head l_ok = inl 200 ->
         http_head l_gone = inl 404 -> http_head l_down = inr e ->
         fst (process_input_url url)
         = [mkRecord url url 404 "Status 404";
            mkRecord url l_gone 404 "Status 404"]).
Proof.
  intros Hpage. rewrite (process_input_url_scraped _ _ Hpage). simpl. split.
  - intros r. rewrite elem_of_app, (list_elem_of_In (flat_map _ _)), in_flat_map.
    setoid_rewrite <- list_elem_of_In. setoid_rewrite elem_of_completed.
    setoid_rewrite record_link_nil. split.
    + intros [Hr | (link & Hlink & Hr)].
      * destruct (http_head url) as [code|] eqn:Hhead; [| inversion Hr].
        destruct (decide (code ∈ ERROR_CODES)); [| inversion Hr].
        apply list_elem_of_singleton in Hr as ->. simpl. auto 10.
      * destruct (http_head link) as [code|] eqn:Hhead; [| inversion Hr].
        destruct (decide (code ∈ ERROR_CODES)); [| inversion Hr].
        apply list_elem_of_singleton in Hr as ->. simpl. auto 10.
    + destruct r as [p b c e]. simpl.
      intros (-> & Hwhere & Hhead & Hcode & ->).
      destruct Hwhere as [-> | Hlink]; [left | right; exists b; split; [done |]];
        rewrite Hhead; (destruct (decide (c ∈ ERROR_CODES)); [| done]);
        by apply list_elem_of_singleton.
  - intros l_ok l_gone l_down e Hlinks Hurl Hok Hgone Hdown.
    assert (H404 : 404 ∈ ERROR_CODES) by by apply elem_of_singleton.
    assert (H200 : 200 ∉ ERROR_CODES).
    { intros Hin. apply elem_of_singleton in Hin. done. }
    rewrite (flat_map_only _ l_gone).
    + rewrite !record_link_nil, Hurl, Hgone.
      destruct (decide (404 ∈ ERROR_CODES)); done.
    + apply NoDup_completed.
    + apply elem_of_completed. rewrite Hlinks. set_solver.
    + intros link Hlink Hne. apply elem_of_completed in Hlink.
      rewrite Hlinks in Hlink. rewrite record_link_nil.
      assert (Hcase : link = l_ok \/ link = l_down) by set_solver.
      destruct Hcase as [-> | ->]; [rewrite Hok | by rewrite Hdown].
      destruct (decide (200 ∈ ERROR_CODES)); done.
Qed.

(** C9: when scraping the seed fails (the local file is missing or cannot
    be read, the GET request raises, or its status is not 200),
    [process_input_url] returns no record and makes no HEAD request at all,
    not even for the seed. *)
Theorem failed_scrape_no_check url :
  ((startswith url "file://" = true
    /\ (path_exists (url2pathname (path (urlparse url))) = false
        \/ read_file (url2pathname (path (urlparse url))) = None))
   \/ (startswith url "file://" = false
       /\ (http_get url = None
           \/ exists code text, http_get url = Some (code, text) /\ code <> 200)))
  -> scrape_page url = None
     /\ process_input_url url = ([], [Scrape url])
     /\ (forall u, Head u ∉ snd (process_input_url url)).
Proof.
  intros Hfail. apply scrape_page_None in Hfail.
  assert (Hrun : process_input_url url = ([], [Scrape url])).
  { unfold process_input_url. by rewrite Hfail. }
  split; [done |]. split; [done |].
  intros u. rewrite Hrun. simpl. intros Hin.
  apply list_elem_of_singleton in Hin. discriminate.
Qed.

End Scanner.

Lemma broken_records_witness :
  exists page_data,
    brokenScraper.scrape_page "http://s/" = Some page_data
    /\ page_links page_data = {["http://s/ok"; "http://s/gone"; "http://down/"]}
    /\ http_head "http://s/" = inl 404
    /\ http_head "http://s/ok" = inl 200
    /\ http_head "http://s/gone" = inl 404
    /\ http_head "http://down/" = inr "Connection refused"
    /\ fst (brokenScraper.process_input_url "http://s/")
       = [brokenScraper.mkRecord "http://s/" "http://s/" 404 "Status 404";
          brokenScraper.mkRecord "http://s/" "http://s/gone" 404 "Status 404"].
Proof.
  assert (Hpage : exists page_data,
             brokenScraper.scrape_page "http://s/" = Some page_data
             /\ page_links page_data
                = {["http://s/ok"; "http://s/gone"; "http://down/"]}).
  { eexists. split; vm_compute; reflexivity. }
  destruct Hpage as (page_data & Hpage & Hlinks). exists page_data.
  split; [exact Hpage |]. split; [exact Hlinks |].
  split; [reflexivity |]. split; [reflexivity |].
  split; [reflexivity |]. split; [reflexivity |].
  apply (proj2 (broken_records "http://s/" page_data Hpage)
           "http://s/ok" "http://s/gone" "http://down/" "Connection refused");
    [exact Hlinks | reflexivity | reflexivity | reflexivity | reflexivity].
Defined.

Lemma failed_scrape_no_check_witness :
  (PyStr.startswith "http://gone/" "file://" = false
   /\ http_get "http://gone/" = Some (404, "Not Found") /\ 404 <> 200)
  /\ brokenScraper.process_input_url "http://gone/" = ([], [Scrape "http://gone/"]).
Proof.
  assert (Hget : http_get "http://gone/" = Some (404, "Not Found")) by reflexivity.
  assert (Hcode : 404 <> 200) by lia.
  split; [split; [reflexivity | split; [exact Hget | exact Hcode]] |].
  apply (failed_scrape_no_check "http://gone/").
  right. split; [reflexivity |]. right. exists 404, "Not Found".
  split; [exact Hget | exact Hcode].
Defined.

(** * Further properties of the programs *)

(** ** Trees that [build_tree] returns *)

Section BuiltTrees.
Context `{PyLib} `{World}.
Import PyStr UrlParse WBSLSCv4 WBSLSCv4_main.

(** The loop only appends to [children], and what it appends are the nodes
    its recursive calls returned for links that passed the test. *)
Lemma visit_links_children rec url base_domain :
  forall links children st children' st',
    visit_links rec url base_domain links children st = Some (children', st') ->
    exists added,
      children' = children ++ added
      /\ Forall (fun c => exists link st1 st2,
                     link ∈ links /\ follows url base_domain link = true
                     /\ rec link st1 = Some (Some c, st2)) added.
Proof.
  intros links. induction links as [|link rest IH]; intros children st children' st'; simpl.
  - intros [= <- _]. exists []. by rewrite app_nil_r.
  - destruct (follows url base_domain link) eqn:Hfollow.
    + destruct (rec link st) as [[[child|] st1]|] eqn:Hcall; [| | done].
      * intros Hrest. destruct (IH _ _ _ _ Hrest) as (added & -> & Hadded).
        exists (child :: added). split; [by rewrite <- app_assoc |].
        constructor.
        -- exists link, st, st1. split; [apply elem_of_cons; by left | done].
        -- eapply Forall_impl; [exact Hadded |].
           intros c (l & s1 & s2 & Hl & Hrec). exists l, s1, s2.
           split; [apply elem_of_cons; by right | done].
      * intros Hrest. destruct (IH _ _ _ _ Hrest) as (added & -> & Hadded).
        exists added. split; [done |].
        eapply Forall_impl; [exact Hadded |].
        intros c (l & s1 & s2 & Hl & Hrec). exists l, s1, s2.
        split; [apply elem_of_cons; by right | done].
    + intros Hrest. destruct (IH _ _ _ _ Hrest) as (added & -> & Hadded).
      exists added. split; [done |].
      eapply Forall_impl; [exact Hadded |].
      intros c (l & s1 & s2 & Hl & Hrec). exists l, s1, s2.
      split; [apply elem_of_cons; by right | done].
Qed.

(** Induction over the trees [build_tree] returns: a node is the page of
    its URL, and its children, if any, were built with one level less from
    links of that page that passed the test. *)
Lemma build_tree_fuel_node_ind (base_domain : string)
    (P : string -> Z -> TreeNode -> Prop) :
  (forall url max_depth page_data children,
      scrape_page url = Some page_data ->
      (children = [] \/ 0 < max_depth) ->
      Forall (fun c => node_url c ∈ page_links page_data
                       /\ follows url base_domain (node_url c) = true
                       /\ P (node_url c) (max_depth - 1) c) children ->
      P url max_depth
        (mkNode url (page_title page_data)
           (sorted (set_iter (page_links page_data))) children)) ->
  forall fuel url max_depth st t st',
    build_tree_fuel fuel url base_domain max_depth st = Some (Some t, st') ->
    node_url t = url /\ P url max_depth t.
Proof.
  intros Hstep fuel.
  induction fuel as [|fuel IH]; intros url max_depth st t st'; simpl; [done |].
  destruct (decide (url ∈ visited st)); [done |].
  destruct (scrape_page url) as [page_data|] eqn:Hpage; [| done].
  rewrite (scrape_page_url _ _ Hpage).
  destruct (0 <? max_depth) eqn:Hdepth.
  2:{ intros [= <- _]. split; [done |]. apply Hstep; [done | by left | constructor]. }
  apply Z.ltb_lt in Hdepth.
  destruct (visit_links _ _ _ _ _ _) as [[children st1]|] eqn:Hloop; [| done].
  intros [= <- _]. split; [done |]. apply Hstep; [done | by right |].
  destruct (visit_links_children _ _ _ _ _ _ _ _ Hloop) as (added & -> & Hadded).
  simpl. eapply Forall_impl; [exact Hadded |].
  intros c (link & st2 & st3 & Hlink & Hfollow & Hcall).
  destruct (IH _ _ _ _ _ Hcall) as [-> HP].
  split; [| done].
  rewrite set_iter_perm in Hlink. by apply elem_of_elements in Hlink.
Qed.

Lemma height_node url title links children :
  height (mkNode url title links children)
  = foldr (fun c h => Nat.max (S (height c)) h) O children.
Proof. simpl. induction children as [|c cs IH]; simpl; [done | by rewrite IH]. Qed.

Lemma height_le url title links children (n : nat) :
  Forall (fun c => (S (height c) <= n)%nat) children ->
  (height (mkNode url title links children) <= n)%nat.
Proof.
  rewrite height_node. induction 1 as [|c cs Hc _ IH]; simpl; lia.
Qed.

(** X1: the tree is no deeper than the depth asked for: no node is more
    than [max_depth] links away from the root, and with a depth of zero or
    less the tree is the root alone. *)
Theorem tree_height_bounded url base_domain max_depth st t st' :
  build_tree url base_domain max_depth st = Some (Some t, st') ->
  (height t <= Z.to_nat max_depth)%nat
  /\ (max_depth <= 0 -> node_children t = []).
Proof.
  intros Hrun.
  destruct (build_tree_fuel_node_ind base_domain
              (fun _ d t => (height t <= Z.to_nat d)%nat
                            /\ (d <= 0 -> node_children t = []))
              ) with (fuel := S (Z.to_nat max_depth)) (url := url)
              (max_depth := max_depth) (st := st) (t := t) (st' := st')
    as [_ Hbound]; [| exact Hrun | exact Hbound].
  intros u d page_data children Hpage Hcase Hchildren. split.
  - apply height_le. destruct Hcase as [-> | Hpos]; [constructor |].
    eapply Forall_impl; [exact Hchildren |].
    intros c (_ & _ & Hc & _). simpl in Hc. lia.
  - intros Hd. destruct Hcase as [-> | Hpos]; [done | lia].
Qed.

(** X2: every node of the tree shows the page of its URL: the page was
    scraped, the node has its title and the sorted list of its links, and
    every child of the node is one of those links. *)
Theorem tree_nodes_mirror_pages url base_domain max_depth st t st' :
  build_tree url base_domain max_depth st = Some (Some t, st') ->
  forall n, n ∈ nodes t ->
    exists page_data,
      scrape_page (node_url n) = Some page_data
      /\ node_title n = page_title page_data
      /\ node_links n = sorted (set_iter (page_links page_data))
      /\ (forall c, c ∈ node_children n ->
                    node_url c ∈ page_links page_data
                    /\ node_url c ∈ node_links n).
Proof.
  intros Hrun.
  destruct (build_tree_fuel_node_ind base_domain
              (fun _ _ t =>
                 forall n, n ∈ nodes t ->
                   exists page_data,
                     scrape_page (node_url n) = Some page_data
                     /\ node_title n = page_title page_data
                     /\ node_links n = sorted (set_iter (page_links page_data))
                     /\ (forall c, c ∈ node_children n ->
                                   node_url c ∈ page_links page_data
                                   /\ node_url c ∈ node_links n)))
    with (fuel := S (Z.to_nat max_depth)) (url := url)
         (max_depth := max_depth) (st := st) (t := t) (st' := st')
    as [_ Hall]; [| exact Hrun | exact Hall].
  intros u d page_data children Hpage _ Hchildren n Hn.
  rewrite Forall_forall in Hchildren.
  apply elem_of_nodes in Hn as [-> | (c & Hc & Hn)].
  - exists page_data. simpl. repeat split; try done.
    + by apply (Hchildren c).
    + rewrite sorted_Permutation, set_iter_perm. apply elem_of_elements.
      by apply (Hchildren c).
  - simpl in Hc. destruct (Hchildren c Hc) as (_ & _ & Hsub). by apply Hsub.
Qed.

End BuiltTrees.

Section BuiltTreeUrls.
Context `{PyLib} `{World}.
Import PyStr UrlParse WBSLSCv4 WBSLSCv4_main.

Lemma node_urls_node url title links children :
  node_url <$> nodes (mkNode url title links children)
  = url :: flat_map (fun c => node_url <$> nodes c) children.
Proof.
  change (nodes (mkNode url title links children))
    with (mkNode url title links children :: flat_map nodes children).
  rewrite fmap_cons. simpl (node_url _). f_equal.
  induction children as [|c cs IH]; [done |].
  cbn [flat_map]. by rewrite fmap_app, IH.
Qed.

Lemma visit_links_order rec url base_domain :
  (forall link st r st',
      rec link st = Some (r, st') ->
      exists new,
        log st' = log st ++ new
        /\ (from_option (fun t => node_url <$> nodes t) [] r)
             `sublist_of` scraped new) ->
  forall links children st children' st',
    visit_links rec url base_domain links children st = Some (children', st') ->
    exists new added,
      log st' = log st ++ new
      /\ children' = children ++ added
      /\ flat_map (fun c => node_url <$> nodes c) added `sublist_of` scraped new.
Proof.
  intros Hrec links.
  induction links as [|link rest IH]; intros children st children' st'; simpl.
  - intros [= <- <-]. exists [], []. rewrite !app_nil_r. done.
  - destruct (follows url base_domain link); [| apply IH].
    destruct (rec link st) as [[child st1]|] eqn:Hcall; [| done].
    intros Hrest. destruct (Hrec _ _ _ _ Hcall) as (new1 & Hlog1 & Hsub1).
    destruct (IH _ _ _ _ Hrest) as (new2 & added & Hlog2 & -> & Hsub2).
    exists (new1 ++ new2). rewrite scraped_app, Hlog2, Hlog1, <- app_assoc.
    destruct child as [c|]; simpl in Hsub1.
    + exists (c :: added). split; [done |]. split; [by rewrite <- app_assoc |].
      simpl. by apply sublist_app.
    + exists added. split; [done |]. split; [done |].
      by apply sublist_inserts_l.
Qed.

Lemma build_tree_fuel_order fuel :
  forall url base_domain max_depth st r st',
    build_tree_fuel fuel url base_domain max_depth st = Some (r, st') ->
    exists new,
      log st' = log st ++ new
      /\ (from_option (fun t => node_url <$> nodes t) [] r)
           `sublist_of` scraped new.
Proof.
  induction fuel as [|fuel IH]; intros url base_domain max_depth st r st'; simpl; [done |].
  destruct (decide (url ∈ visited st)).
  { intros [= <- <-]. exists []. rewrite app_nil_r. done. }
  destruct (scrape_page url) as [page_data|] eqn:Hpage.
  2:{ intros [= <- <-]. exists [Scrape url]. split; [done |]. apply sublist_nil_l. }
  rewrite (scrape_page_url _ _ Hpage).
  destruct (0 <? max_depth).
  2:{ intros [= <- <-]. exists [Scrape url]. split; [done |]. simpl. reflexivity. }
  destruct (visit_links _ _ _ _ _ _) as [[children st1]|] eqn:Hloop; [| done].
  intros [= <- <-].
  destruct (visit_links_order _ url base_domain
              (fun link st2 r2 st2' => IH link base_domain (max_depth - 1) st2 r2 st2')
              _ _ _ _ _ Hloop) as (new & added & Hlog & -> & Hsub).
  simpl in Hlog. exists (Scrape url :: new). split.
  - rewrite Hlog, <- app_assoc. done.
  - cbn [from_option]. rewrite node_urls_node. simpl. by apply sublist_skip.
Qed.

(** X3: in a tree that [build_tree] returns no URL occurs twice.  The
    URLs of the nodes, the root first and the children from left to right,
    come in the order in which their pages were scraped; each of them is
    in the visited set afterwards and was not in it before. *)
Theorem tree_urls_distinct url base_domain max_depth st t st' :
  build_tree url base_domain max_depth st = Some (Some t, st') ->
  NoDup (node_url <$> nodes t)
  /\ (exists new,
         log st' = log st ++ new
         /\ (node_url <$> nodes t) `sublist_of` scraped new)
  /\ (forall n, n ∈ nodes t ->
                node_url n ∈ visited st' /\ node_url n ∉ visited st).
Proof.
  intros Hrun.
  destruct (build_tree_fuel_order _ _ _ _ _ _ _ Hrun) as (new & Hlog & Hsub).
  destruct (build_tree_fuel_scrapes_once _ _ _ _ _ _ _ Hrun)
    as (new' & Hlog' & Hdistinct & Hfresh & Hvisited).
  assert (new' = new) as -> by (rewrite Hlog in Hlog'; by apply app_inv_head in Hlog').
  simpl in Hsub. split; [by eapply sublist_NoDup | split; [by exists new |]].
  intros n Hn.
  assert (Hin : node_url n ∈ scraped new).
  { eapply elem_of_sublist; [| exact Hsub]. apply list_elem_of_fmap. by exists n. }
  split; [rewrite Hvisited; set_solver | by apply Hfresh].
Qed.

End BuiltTreeUrls.

(** ** Flattening a tree *)

Section Flatten.
Import PyStr WBSLSCv4 WBSLSCv4_main.

Lemma traverse_tree_foldl (t : TreeNode) :
  forall unique_links,
    traverse_tree t unique_links = foldl add_first unique_links (row <$> nodes t).
Proof.
  induction t as [url title links children IH] using TreeNode_forall_ind.
  intros unique_links.
  change (nodes (mkNode url title links children))
    with (mkNode url title links children :: flat_map nodes children).
  rewrite fmap_cons. cbn [foldl].
  change (row (mkNode url title links children)) with (url, title).
  change (traverse_tree (mkNode url title links children) unique_links)
    with ((fix loop (children : list TreeNode) (unique_links : list (string * string)) :=
             match children with
             | [] => unique_links
             | child :: rest => loop rest (traverse_tree child unique_links)
             end) children (add_first unique_links (url, title))).
  generalize (add_first unique_links (url, title)). clear unique_links.
  induction IH as [|c cs Hc _ IHcs]; intros unique_links; [done |].
  cbn [flat_map]. rewrite fmap_app, foldl_app, <- Hc. apply IHcs.
Qed.

Lemma has_key_get url unique_links :
  has_key url unique_links = true <-> is_Some (get url unique_links).
Proof.
  unfold has_key, get. induction unique_links as [|[k v] l IH]; simpl.
  - split; [done | by intros [? ?]].
  - destruct (String.eqb k url); simpl; [split; eauto | exact IH].
Qed.

Lemma has_key_elem url unique_links :
  has_key url unique_links = true <-> url ∈ unique_links.*1.
Proof.
  unfold has_key. induction unique_links as [|[k v] l IH]; simpl.
  - split; [done | intros Hin; inversion Hin].
  - rewrite orb_true_iff, IH, elem_of_cons, String.eqb_eq. naive_solver.
Qed.

Lemma get_app url l1 l2 :
  get url (l1 ++ l2) = match get url l1 with Some v => Some v | None => get url l2 end.
Proof.
  unfold get. induction l1 as [|[k v] l1 IH]; simpl; [done |].
  destruct (String.eqb k url); [done | exact IH].
Qed.

Lemma get_add_first url unique_links k v :
  get url (add_first unique_links (k, v))
  = match get url unique_links with
    | Some x => Some x
    | None => if (truthy k && String.eqb k url)%bool then Some v else None
    end.
Proof.
  unfold add_first. simpl fst.
  destruct (truthy k) eqn:Hk; simpl.
  - destruct (has_key k unique_links) eqn:Hkey; simpl.
    + destruct (get url unique_links) as [x|] eqn:Hget; [done |].
      destruct (String.eqb k url) eqn:Heq; [| done].
      apply String.eqb_eq in Heq as ->.
      apply has_key_get in Hkey as [x Hx]. congruence.
    + rewrite get_app. destruct (get url unique_links); [done |].
      unfold get. simpl. by destruct (String.eqb k url).
  - by destruct (get url unique_links).
Qed.

Lemma get_foldl_add_first url (l : list (string * string)) :
  forall unique_links,
    get url (foldl add_first unique_links l)
    = match get url unique_links with
      | Some x => Some x
      | None => if truthy url then get url l else None
      end.
Proof.
  induction l as [|[k v] l IH]; intros unique_links; simpl.
  - destruct (get url unique_links); [done | by destruct (truthy url)].
  - rewrite IH, get_add_first. destruct (get url unique_links) as [x|]; [done |].
    unfold get at 2. simpl. destruct (String.eqb k url) eqn:Heq.
    + apply String.eqb_eq in Heq as ->. rewrite andb_true_r.
      by destruct (truthy url).
    + by rewrite andb_false_r.
Qed.

Lemma foldl_add_first_sublist (l : list (string * string)) :
  forall unique_links,
    exists added,
      foldl add_first unique_links l = unique_links ++ added
      /\ added `sublist_of` l.
Proof.
  induction l as [|item l IH]; intros unique_links; simpl.
  - exists []. by rewrite app_nil_r.
  - destruct (IH (add_first unique_links item)) as (added & -> & Hsub).
    unfold add_first. destruct (_ && _)%bool.
    + exists (item :: added). split; [by rewrite <- app_assoc | by apply sublist_skip].
    + exists added. split; [done | by apply sublist_cons].
Qed.

Lemma foldl_add_first_NoDup (l : list (string * string)) :
  forall unique_links,
    NoDup unique_links.*1 -> NoDup (foldl add_first unique_links l).*1.
Proof.
  induction l as [|[k v] l IH]; intros unique_links Hd; simpl; [done |].
  apply IH. unfold add_first. simpl fst.
  destruct (truthy k); simpl; [| done].
  destruct (has_key k unique_links) eqn:Hkey; simpl; [done |].
  rewrite fmap_app. simpl. apply NoDup_app. repeat split; [done | | apply NoDup_singleton].
  intros u Hu Hu'. apply list_elem_of_singleton in Hu' as ->.
  apply has_key_elem in Hu. congruence.
Qed.

Lemma foldl_add_first_distinct (l : list (string * string)) :
  forall unique_links,
    NoDup l.*1 ->
    (forall k, k ∈ l.*1 -> k ∉ unique_links.*1) ->
    foldl add_first unique_links l
    = unique_links ++ List.filter (fun item => truthy (fst item)) l.
Proof.
  induction l as [|[k v] l IH]; intros unique_links Hd Hnew; simpl.
  - by rewrite app_nil_r.
  - rewrite fmap_cons in Hd. apply NoDup_cons in Hd as [Hk Hd].
    assert (Hkey : has_key k unique_links = false).
    { destruct (has_key k unique_links) eqn:Hkey; [| done].
      apply has_key_elem in Hkey. exfalso. apply (Hnew k); [| done].
      rewrite fmap_cons. apply elem_of_cons. by left. }
    unfold add_first at 2. simpl fst. rewrite Hkey, andb_true_r.
    destruct (truthy k).
    + rewrite IH; [by rewrite <- app_assoc | done |].
      intros k' Hk'. rewrite fmap_app, elem_of_app. intros [Hin | Hin].
      * apply (Hnew k'); [| done]. rewrite fmap_cons. apply elem_of_cons. by right.
      * simpl in Hin. apply list_elem_of_singleton in Hin as ->. done.
    + apply IH; [done |]. intros k' Hk'. apply Hnew.
      rewrite fmap_cons. apply elem_of_cons. by right.
Qed.

Lemma get_rows url (l : list TreeNode) :
  get url (row <$> l)
  = node_title <$> List.find (fun n => String.eqb (node_url n) url) l.
Proof.
  unfold get. induction l as [|n l IH]; simpl; [done |].
  destruct (String.eqb (node_url n) url); [done | exact IH].
Qed.

(** X4: [traverse_tree] gives a dictionary with one entry for every
    non-empty URL of the tree and no other: the title of an entry is the
    title of the first node with that URL, the root first and the children
    from left to right, and the entries keep that order. *)
Theorem traverse_tree_first_seen (t : TreeNode) :
  NoDup (traverse_tree t []).*1
  /\ traverse_tree t [] `sublist_of` (row <$> nodes t)
  /\ (forall url,
         get url (traverse_tree t [])
         = if truthy url
           then node_title <$> List.find (fun n => String.eqb (node_url n) url) (nodes t)
           else None).
Proof.
  rewrite traverse_tree_foldl. split; [| split].
  - apply foldl_add_first_NoDup. constructor.
  - destruct (foldl_add_first_sublist (row <$> nodes t) []) as (added & -> & Hsub).
    done.
  - intros url. rewrite get_foldl_add_first. simpl. by rewrite get_rows.
Qed.

End Flatten.

(** ** The crawler's main program *)

Section CrawlerMain.
Context `{PyLib} `{World}.
Import PyStr UrlParse WBSLSCv4 WBSLSCv4_main.




(** X5: flattening a tree that [build_tree] returned loses nothing and
    repeats nothing: the dictionary holds exactly the nodes with a non-empty
    URL, each with its own title, the root first and the children from left
    to right; when no URL is empty there are as many entries as nodes. *)
Theorem traverse_built_tree url base_domain max_depth st t st' :
  build_tree url base_domain max_depth st = Some (Some t, st') ->
  traverse_tree t []
  = List.filter (fun item => truthy (fst item)) (row <$> nodes t)
  /\ ((forall n, n ∈ nodes t -> node_url n <> "") ->
      traverse_tree t [] = row <$> nodes t
      /\ length (traverse_tree t []) = length (nodes t)).
Proof.
  intros Hrun. destruct (build_tree_fuel_order _ _ _ _ _ _ _ Hrun) as (new & Hlog & Hsub).
  destruct (build_tree_fuel_scrapes_once _ _ _ _ _ _ _ Hrun)
    as (new' & Hlog' & Hdistinct & _).
  assert (new' = new) as -> by (rewrite Hlog in Hlog'; by apply app_inv_head in Hlog').
  simpl in Hsub.
  assert (Hurls : NoDup (row <$> nodes t).*1).
  { rewrite <- list_fmap_compose. by eapply sublist_NoDup. }
  assert (Hflat : traverse_tree t []
                  = List.filter (fun item => truthy (fst item)) (row <$> nodes t)).
  { rewrite traverse_tree_foldl, foldl_add_first_distinct; [done | done |].
    intros k _ Hin. inversion Hin. }
  split; [exact Hflat |].
  intros Hnonempty.
  assert (Hall : List.filter (fun item => truthy (fst item)) (row <$> nodes t)
                 = row <$> nodes t).
  { apply forallb_filter_id. apply forallb_forall. intros item Hitem.
    apply list_elem_of_In, list_elem_of_fmap in Hitem as (n & -> & Hn).
    simpl. apply truthy_true. by apply Hnonempty. }
  rewrite Hflat, Hall. split; [done | by rewrite length_fmap].
Qed.


End CrawlerMain.

Lemma traverse_built_tree_witness :
  exists t st',
    WBSLSCv4.build_tree "http://h/" "h" 2 (WBSLSCv4.mkCrawl ∅ []) = Some (Some t, st')
    /\ WBSLSCv4_main.traverse_tree t []
       = [("http://h/", ""); ("file://h/a.html", "");
          ("file://other/b.html", ""); ("http://h/b", "B")].
Proof.
  assert (Hrun : exists t st',
             WBSLSCv4.build_tree "http://h/" "h" 2 (WBSLSCv4.mkCrawl ∅ [])
             = Some (Some t, st')
             /\ List.filter (fun item => PyStr.truthy (fst item))
                  (WBSLSCv4_main.row <$> WBSLSCv4.nodes t)
                = [("http://h/", ""); ("file://h/a.html", "");
                   ("file://other/b.html", ""); ("http://h/b", "B")]).
  { eexists _, _. split; vm_compute; reflexivity. }
  destruct Hrun as (t & st' & Hrun & Hrows). exists t, st'.
  split; [exact Hrun |]. rewrite <- Hrows.
  exact (proj1 (traverse_built_tree "http://h/" "h" 2 (WBSLSCv4.mkCrawl ∅ []) t st' Hrun)).
Defined.

(** ** The scanner's requests and report *)

Section ScannerReport.
Context `{PyLib} `{World}.
Import PyStr UrlParse brokenScraper brokenScraper_main.

Lemma elem_of_record_link_nil url link r :
  r ∈ record_link url [] link
  <-> exists code,
        http_head link = inl code /\ code ∈ ERROR_CODES
        /\ r = mkRecord url link code ("Status " +:+ pretty code).
Proof.
  rewrite record_link_nil. destruct (http_head link) as [code | e].
  - destruct (decide (code ∈ ERROR_CODES)) as [Hin | Hout].
    + rewrite list_elem_of_singleton. split; [intros ->; eauto |].
      by intros (c & [= <-] & _ & ->).
    + split; [intros Hr; inversion Hr |].
      by intros (c & [= <-] & Hc & _).
  - split; [intros Hr; inversion Hr | by intros (c & ? & _)].
Qed.

Lemma elem_of_flat_map {A B} (f : A -> list B) (l : list A) (y : B) :
  y ∈ flat_map f l <-> exists x, x ∈ l /\ y ∈ f x.
Proof.
  rewrite list_elem_of_In, in_flat_map. setoid_rewrite list_elem_of_In. done.
Qed.

(** The records of one seed. *)
Lemma elem_of_process_input_url url r :
  r ∈ fst (process_input_url url)
  <-> exists page_data code,
        scrape_page url = Some page_data
        /\ (broken_link r = url \/ broken_link r ∈ page_links page_data)
        /\ http_head (broken_link r) = inl code /\ code ∈ ERROR_CODES
        /\ r = mkRecord url (broken_link r) code ("Status " +:+ pretty code).
Proof.
  destruct (scrape_page url) as [page_data|] eqn:Hpage.
  - rewrite (process_input_url_scraped _ _ Hpage). simpl.
    rewrite elem_of_app, elem_of_flat_map, elem_of_record_link_nil.
    setoid_rewrite elem_of_record_link_nil. setoid_rewrite elem_of_completed.
    split.
    + intros [(code & Hhead & Hcode & ->) | (link & Hlink & code & Hhead & Hcode & ->)];
        exists page_data, code; simpl; auto 10.
    + intros (pd & code & [= <-] & Hwhere & Hhead & Hcode & Hr).
      destruct Hwhere as [Hself | Hlink].
      * left. exists code. rewrite Hself in Hhead, Hr. done.
      * right. exists (broken_link r). split; [done |]. by exists code.
  - unfold process_input_url. rewrite Hpage. simpl.
    split; [intros Hr; inversion Hr | by intros (pd & code & ? & _)].
Qed.

(** X7: for a seed whose page is scraped the requests are: the scrape,
    then one HEAD request for the seed, then one HEAD request for every
    link of the page, each link once, in some order; there are as many HEAD
    requests as links plus one, whatever the results are. *)
Theorem head_requests_of_seed url page_data :
  scrape_page url = Some page_data ->
  exists order,
    snd (process_input_url url) = Scrape url :: Head url :: (Head <$> order)
    /\ NoDup order
    /\ (forall link, link ∈ order <-> link ∈ page_links page_data)
    /\ length (snd (process_input_url url)) = (2 + size (page_links page_data))%nat.
Proof.
  intros Hpage. rewrite (process_input_url_scraped _ _ Hpage). simpl.
  exists (as_completed (set_iter (page_links page_data))).
  split; [done |]. split; [apply NoDup_completed |].
  split; [intros link; apply elem_of_completed |].
  rewrite length_fmap, as_completed_perm, set_iter_perm. done.
Qed.

(** X8: a page that links to itself and whose own check gives an error
    status is reported twice, once as the main page and once as one of its
    links, with the same record. *)
Theorem self_link_reported_twice url page_data code :
  scrape_page url = Some page_data ->
  url ∈ page_links page_data ->
  http_head url = inl code -> code ∈ ERROR_CODES ->
  exists before after,
    fst (process_input_url url)
    = mkRecord url url code ("Status " +:+ pretty code) :: before
      ++ mkRecord url url code ("Status " +:+ pretty code) :: after
    /\ (mkRecord url url code ("Status " +:+ pretty code) ∉ before)
    /\ (mkRecord url url code ("Status " +:+ pretty code) ∉ after).
Proof.
  intros Hpage Hself Hhead Hcode.
  rewrite (process_input_url_scraped _ _ Hpage). simpl.
  pose proof (NoDup_completed (page_links page_data)) as Hnodup.
  apply elem_of_completed, list_elem_of_split in Hself as (l1 & l2 & Hsplit).
  rewrite Hsplit in Hnodup |- *.
  apply NoDup_app in Hnodup as (_ & Hl1 & Hl2).
  apply NoDup_cons in Hl2 as [Hl2 _].
  assert (Hone : record_link url [] url
                 = [mkRecord url url code ("Status " +:+ pretty code)]).
  { rewrite record_link_nil, Hhead. destruct (decide (code ∈ ERROR_CODES)); done. }
  rewrite flat_map_app. cbn [flat_map]. rewrite Hone.
  exists (flat_map (record_link url []) l1), (flat_map (record_link url []) l2).
  split; [done |]. split.
  - intros Hin. apply elem_of_flat_map in Hin as (link & Hlink & Hr).
    apply elem_of_record_link_nil in Hr as (c & _ & _ & [= <- _]).
    apply (Hl1 url); [done | apply elem_of_cons; by left].
  - intros Hin. apply elem_of_flat_map in Hin as (link & Hlink & Hr).
    apply elem_of_record_link_nil in Hr as (c & _ & _ & [= <- _]). done.
Qed.

Lemma foldl_extend {A B} (f : A -> list B) (l : list A) :
  forall acc, foldl (fun acc x => acc ++ f x) acc l = acc ++ flat_map f l.
Proof.
  induction l as [|x l IH]; intros acc; simpl; [by rewrite app_nil_r |].
  by rewrite IH, <- app_assoc.
Qed.

Lemma flat_map_Permutation {A B} (f : A -> list B) (l1 l2 : list A) :
  l1 ≡ₚ l2 -> flat_map f l1 ≡ₚ flat_map f l2.
Proof.
  induction 1 as [| x l1 l2 _ IH | x y l | l1 l2 l3 _ IH1 _ IH2]; simpl.
  - done.
  - by rewrite IH.
  - rewrite !app_assoc. f_equiv. apply Permutation_app_comm.
  - by rewrite IH1.
Qed.

(** X9: the report of the main program.  It holds the records of every
    seed, no more and no fewer, in some order.  Each record names a seed
    whose page was scraped, and the seed itself or a link of that page,
    whose check returned the error status of the record; its message is
    [Status <code>], so the message [Broken main page] never occurs.  A
    seed whose page cannot be scraped gives no record. *)
Theorem report_of_all_seeds (urls : list string) :
  scan_all urls ≡ₚ flat_map (fun url => fst (process_input_url url)) urls
  /\ (forall r,
         r ∈ scan_all urls
         <-> parent_url r ∈ urls
             /\ exists page_data,
                  scrape_page (parent_url r) = Some page_data
                  /\ (broken_link r = parent_url r
                      \/ broken_link r ∈ page_links page_data)
                  /\ http_head (broken_link r) = inl (status r)
                  /\ status r ∈ ERROR_CODES
                  /\ error r = "Status " +:+ pretty (status r))
  /\ (forall r, r ∈ scan_all urls -> error r <> "Broken main page")
  /\ (forall r, r ∈ scan_all urls -> scrape_page (parent_url r) <> None).
Proof.
  assert (Hperm : scan_all urls
                  ≡ₚ flat_map (fun url => fst (process_input_url url)) urls).
  { unfold scan_all. rewrite foldl_extend. simpl.
    apply flat_map_Permutation, as_completed_perm. }
  assert (Hiff : forall r,
             r ∈ scan_all urls
             <-> parent_url r ∈ urls
                 /\ exists page_data,
                      scrape_page (parent_url r) = Some page_data
                      /\ (broken_link r = parent_url r
                          \/ broken_link r ∈ page_links page_data)
                      /\ http_head (broken_link r) = inl (status r)
                      /\ status r ∈ ERROR_CODES
                      /\ error r = "Status " +:+ pretty (status r)).
  { intros r. rewrite Hperm, elem_of_flat_map.
    setoid_rewrite elem_of_process_input_url. split.
    - intros (url & Hurl & pd & code & Hpage & Hwhere & Hhead & Hcode & Hr).
      rewrite Hr in *. simpl in *. split; [done |]. exists pd. auto 10.
    - intros (Hurl & pd & Hpage & Hwhere & Hhead & Hcode & Herr).
      exists (parent_url r). split; [done |]. exists pd, (status r).
      repeat split; try done. destruct r as [p b c e]. simpl in *. by rewrite Herr. }
  split; [exact Hperm |]. split; [exact Hiff |]. split.
  - intros r Hr. apply Hiff in Hr as (_ & pd & _ & _ & _ & _ & ->). discriminate.
  - intros r Hr. apply Hiff in Hr as (_ & pd & -> & _). done.
Qed.

End ScannerReport.

(** ** Stripped strings *)

Section Strip.
Import PyStr.

Lemma string_app_cons c (a b : string) : String c a +:+ b = String c (a +:+ b).
Proof. reflexivity. Qed.

Lemma string_app_assoc (a b c : string) : (a +:+ b) +:+ c = a +:+ (b +:+ c).
Proof.
  induction a as [|x a IH]; [done |].
  by rewrite !string_app_cons, IH.
Qed.

Lemma rev_string_acc (s acc : string) :
  rev_string acc s = rev_string "" s +:+ acc.
Proof.
  revert acc. induction s as [|c s IH]; intros acc; simpl; [done |].
  rewrite (IH (String c acc)), (IH (String c "")), string_app_assoc. done.
Qed.

Lemma rev_string_app (a b : string) :
  rev_string "" (a +:+ b) = rev_string "" b +:+ rev_string "" a.
Proof.
  induction a as [|c a IH].
  - change ("" +:+ b) with b. simpl. by rewrite string_app_empty.
  - rewrite string_app_cons. simpl.
    rewrite (rev_string_acc (a +:+ b)), (rev_string_acc a), IH, string_app_assoc.
    done.
Qed.

Lemma rev_string_involutive (s : string) :
  rev_string "" (rev_string "" s) = s.
Proof. rewrite rev_string_twice. simpl. apply string_app_empty. Qed.

Lemma lstrip_by_suffix p (s : string) : exists a, s = a +:+ lstrip_by p s.
Proof.
  induction s as [|c s [a IH]]; simpl; [by exists "" |].
  destruct (p c).
  - exists (String c a). by rewrite string_app_cons, <- IH.
  - by exists "".
Qed.

Lemma lstrip_by_idem p (s : string) : lstrip_by p (lstrip_by p s) = lstrip_by p s.
Proof.
  induction s as [|c s IH]; simpl; [done |].
  destruct (p c) eqn:Hc; [done |]. simpl. by rewrite Hc.
Qed.

Lemma lstrip_by_length p (s : string) :
  (String.length (lstrip_by p s) <= String.length s)%nat.
Proof. induction s as [|c s IH]; simpl; [done |]. destruct (p c); simpl; lia. Qed.

Lemma lstrip_by_prefix_fixed p (w x : string) :
  lstrip_by p (w +:+ x) = w +:+ x -> lstrip_by p w = w.
Proof.
  destruct w as [|c w]; [done |]. rewrite string_app_cons. simpl.
  destruct (p c); [| done]. intros Heq.
  pose proof (lstrip_by_length p (w +:+ x)) as Hlen.
  rewrite Heq in Hlen. simpl in Hlen. lia.
Qed.

Lemma rstrip_by_prefix p (t : string) : exists x, t = rstrip_by p t +:+ x.
Proof.
  unfold rstrip_by. destruct (lstrip_by_suffix p (rev_string "" t)) as [a Ha].
  exists (rev_string "" a).
  rewrite <- rev_string_app, <- Ha. by rewrite rev_string_involutive.
Qed.

(** What [strip] returns starts and ends with a character that is kept. *)
Lemma strip_by_fixed p (s : string) :
  lstrip_by p (strip_by p s) = strip_by p s
  /\ lstrip_by p (rev_string "" (strip_by p s)) = rev_string "" (strip_by p s).
Proof.
  unfold strip_by. split.
  - destruct (rstrip_by_prefix p (lstrip_by p s)) as [x Hx].
    apply (lstrip_by_prefix_fixed p _ x). rewrite <- Hx. apply lstrip_by_idem.
  - unfold rstrip_by. rewrite rev_string_involutive. apply lstrip_by_idem.
Qed.

Lemma strip_by_idem p (s : string) : strip_by p (strip_by p s) = strip_by p s.
Proof.
  destruct (strip_by_fixed p s) as [Hl Hr].
  unfold strip_by at 1. rewrite Hl. unfold rstrip_by. rewrite Hr.
  apply rev_string_involutive.
Qed.

Lemma strip_idem (s : string) : strip (strip s) = strip s.
Proof. apply strip_by_idem. Qed.

End Strip.

(** ** Reading the seeds *)

Section ReadSeeds.
Import PyStr brokenScraper_main.

Lemma foldl_keep_truthy {A} (f : A -> option string) (l : list A) :
  forall urls,
    foldl (fun urls x =>
             match f x with
             | Some url => if truthy url then urls ++ [url] else urls
             | None => urls
             end) urls l
    = urls ++ List.filter truthy (omap f l).
Proof.
  induction l as [|x l IH]; intros urls; simpl; [by rewrite app_nil_r |].
  rewrite IH. destruct (f x) as [url|]; [| done]. simpl.
  destruct (truthy url); [by rewrite <- app_assoc | done].
Qed.

Lemma urls_from_lines_filter (lines : list string) :
  urls_from_lines lines = List.filter truthy (strip <$> lines).
Proof.
  unfold urls_from_lines.
  rewrite (foldl_keep_truthy (fun line => Some (strip line)) lines []).
  assert (Hmap : omap (fun line => Some (strip line)) lines = strip <$> lines).
  { induction lines as [|x l IH]; csimpl; [done | by rewrite IH]. }
  by rewrite Hmap.
Qed.

Lemma urls_from_rows_filter (rows : list (list string)) :
  urls_from_rows rows = List.filter truthy (strip <$> omap head rows).
Proof.
  unfold urls_from_rows.
  assert (Hgen : forall urls,
             foldl (fun urls row =>
                      match row with
                      | [] => urls
                      | field :: _ =>
                          let url := strip field in
                          if truthy url then urls ++ [url] else urls
                      end) urls rows
             = urls ++ List.filter truthy (strip <$> omap head rows)).
  { induction rows as [|[|x r] l IH]; intros urls; simpl.
    - by rewrite app_nil_r.
    - apply IH.
    - rewrite IH. destruct (truthy (strip x)); [by rewrite <- app_assoc | done]. }
  apply Hgen.
Qed.

(** X10: the seeds the scanner reads.  A file with the extension [.txt],
    in any case, is read line by line, any other file row by row with the
    first field of each row that has one.  The seeds are the stripped lines
    or fields that are not empty, in their order, so no seed is empty and
    none has white space around it. *)
Theorem seeds_are_stripped (ext : string) (lines : list string)
    (rows : list (list string)) :
  read_urls ext lines rows
  = (if String.eqb (lower ext) ".txt"
     then List.filter truthy (strip <$> lines)
     else List.filter truthy (strip <$> omap head rows))
  /\ (forall url, url ∈ read_urls ext lines rows -> url <> "" /\ strip url = url)
  /\ (forall line, strip line <> "" -> strip line ∈ urls_from_lines lines
                                      <-> exists l, l ∈ lines /\ strip l = strip line).
Proof.
  assert (Hread : read_urls ext lines rows
                  = (if String.eqb (lower ext) ".txt"
                     then List.filter truthy (strip <$> lines)
                     else List.filter truthy (strip <$> omap head rows))).
  { unfold read_urls.
    destruct (String.eqb (lower ext) ".txt");
      [apply urls_from_lines_filter | apply urls_from_rows_filter]. }
  split; [exact Hread |]. split.
  - intros url. rewrite Hread.
    destruct (String.eqb (lower ext) ".txt");
      rewrite list_elem_of_In, filter_In, <- list_elem_of_In, list_elem_of_fmap;
      intros [(x & -> & _) Hne]; (split; [by apply truthy_true | apply strip_idem]).
  - intros line Hne. rewrite urls_from_lines_filter.
    rewrite list_elem_of_In, filter_In, <- list_elem_of_In, list_elem_of_fmap.
    rewrite truthy_true. naive_solver.
Qed.

End ReadSeeds.

(** ** Reading a depth written in decimal *)

Section DecimalDepth.
Import PyStr UrlParse WBSLSCv4.

Lemma pretty_N_char_digit (x : N) :
  (x < 10)%N ->
  is_digit (pretty_N_char x) = true
  /\ Z.of_nat (code (pretty_N_char x) - 48) = Z.of_N x.
Proof.
  intros Hx.
  assert (x = 0 \/ x = 1 \/ x = 2 \/ x = 3 \/ x = 4 \/ x = 5 \/ x = 6
          \/ x = 7 \/ x = 8 \/ x = 9)%N as Hcases by lia.
  repeat (destruct Hcases as [-> | Hcases]; [by vm_compute |]).
  subst. by vm_compute.
Qed.

Lemma digits_value_pretty_N_go (x : N) :
  (0 < x)%N ->
  exists k, forall acc after_digit s,
    Re.digits_value acc after_digit (pretty_N_go x s)
    = Re.digits_value (k * acc + Z.of_N x) true s.
Proof.
  induction (N.lt_wf_0 x) as [x _ IH]. intros Hpos.
  assert (Hmod : (x `mod` 10 < 10)%N) by (apply N.mod_lt; lia).
  destruct (pretty_N_char_digit _ Hmod) as [Hdigit Hval].
  assert (Hsplit : Z.of_N x = 10 * Z.of_N (x `div` 10) + Z.of_N (x `mod` 10)).
  { rewrite (N.div_mod x 10) at 1 by lia. lia. }
  destruct (decide (x `div` 10 = 0)%N) as [Hzero | Hmore].
  - exists 10. intros acc after_digit s.
    rewrite pretty_N_go_step, Hzero, pretty_N_go_0 by done.
    simpl. rewrite Hdigit, Hval, Hsplit, Hzero. f_equal; lia.
  - destruct (IH (x `div` 10)%N) as [k Hk]; [apply N.div_lt; lia | lia |].
    exists (10 * k). intros acc after_digit s.
    rewrite pretty_N_go_step, Hk by done.
    simpl. rewrite Hdigit, Hval, Hsplit. f_equal; lia.
Qed.

Lemma digits_pretty_N_go (x : N) :
  forall s, all_chars is_digit s = true ->
            all_chars is_digit (pretty_N_go x s) = true.
Proof.
  induction (N.lt_wf_0 x) as [x _ IH]. intros s Hs.
  destruct (decide (x = 0)%N) as [-> | Hne]; [by rewrite pretty_N_go_0 |].
  rewrite pretty_N_go_step by lia. apply IH; [apply N.div_lt; lia |].
  simpl. rewrite Hs, andb_true_r.
  apply pretty_N_char_digit, N.mod_lt. lia.
Qed.

Lemma strip_int_space_digits (ds : string) :
  all_chars is_digit ds = true -> strip_by Re.int_space ds = ds.
Proof.
  intros Hd. by apply strip_by_none, not_space_not_int_space, digits_not_space.
Qed.

(** A literal of digits, and the same with a minus sign, within the limit
    and beyond it. *)
Lemma py_int_of_digits (ds : string) :
  all_chars is_digit ds = true ->
  Re.py_int ds = Re.py_int_digits ds
  /\ Re.py_int ("-" +:+ ds) = Z.opp <$> Re.py_int_digits ds.
Proof.
  intros Hd. split.
  - unfold Re.py_int. rewrite strip_int_space_digits by done.
    destruct ds as [|c ds]; [done |]. simpl in Hd.
    apply andb_true_iff in Hd as [Hc _].
    destruct c as [[] [] [] [] [] [] [] []]; try discriminate Hc; reflexivity.
  - change ("-" +:+ ds) with (String "-" ds).
    unfold Re.py_int. rewrite strip_by_none; [done |].
    apply not_space_not_int_space. simpl. by apply digits_not_space.
Qed.

Lemma pretty_N_go_length_ge (x : N) :
  forall s, (String.length s <= String.length (pretty_N_go x s))%nat.
Proof.
  induction (N.lt_wf_0 x) as [x _ IH]. intros s.
  destruct (decide (x = 0)%N) as [-> | Hne]; [by rewrite pretty_N_go_0 |].
  rewrite pretty_N_go_step by lia.
  etrans; [| apply IH; apply N.div_lt; lia]. simpl. lia.
Qed.

Lemma pretty_N_go_length_le (d : nat) :
  forall x s,
    (x < 10 ^ N.of_nat d)%N ->
    (String.length (pretty_N_go x s) <= d + String.length s)%nat.
Proof.
  induction d as [|d IH]; intros x s Hx.
  - change (10 ^ N.of_nat 0)%N with 1%N in Hx.
    assert (x = 0%N) as -> by lia. rewrite pretty_N_go_0. lia.
  - destruct (decide (x = 0)%N) as [-> | Hne]; [rewrite pretty_N_go_0; lia |].
    rewrite pretty_N_go_step by lia.
    etrans; [apply IH |]; [| simpl; lia].
    rewrite Nat2N.inj_succ, N.pow_succ_r' in Hx.
    apply N.Div0.div_lt_upper_bound. lia.
Qed.

Lemma pretty_N_go_length_gt (d : nat) :
  forall x s,
    (10 ^ N.of_nat d <= x)%N ->
    (d + String.length s < String.length (pretty_N_go x s))%nat.
Proof.
  induction d as [|d IH]; intros x s Hx.
  - change (10 ^ N.of_nat 0)%N with 1%N in Hx.
    rewrite pretty_N_go_step by lia.
    pose proof (pretty_N_go_length_ge (x `div` 10)
                  (String (pretty_N_char (x `mod` 10)) s)) as Hlen.
    simpl in Hlen. lia.
  - rewrite Nat2N.inj_succ, N.pow_succ_r' in Hx.
    assert (Hpos : (0 < 10 ^ N.of_nat d)%N) by (apply N.neq_0_lt_0, N.pow_nonzero; lia).
    rewrite pretty_N_go_step by lia.
    assert (Hdiv : (10 ^ N.of_nat d <= x `div` 10)%N)
      by (apply N.div_le_lower_bound; lia).
    pose proof (IH (x `div` 10)%N (String (pretty_N_char (x `mod` 10)) s) Hdiv) as Hlen.
    simpl in Hlen. lia.
Qed.

Lemma truthy_pretty_N_go (x : N) (s : string) :
  (0 < x)%N -> truthy (pretty_N_go x s) = true.
Proof.
  revert s. induction (N.lt_wf_0 x) as [x _ IH]. intros s Hpos.
  rewrite pretty_N_go_step by done.
  destruct (decide (x `div` 10 = 0)%N) as [-> | Hne]; [by rewrite pretty_N_go_0 |].
  apply IH; [apply N.div_lt; lia | by apply N.neq_0_lt_0].
Qed.

(** The decimal digits of a positive number, read back. *)
Lemma py_int_digits_pretty (p : positive) :
  all_chars is_digit (pretty_N_go (N.pos p) "") = true
  /\ ((N.pos p < 10 ^ N.of_nat Re.max_str_digits)%N ->
      Re.py_int_digits (pretty_N_go (N.pos p) "") = Some (Z.pos p))
  /\ ((10 ^ N.of_nat Re.max_str_digits <= N.pos p)%N ->
      Re.py_int_digits (pretty_N_go (N.pos p) "") = None).
Proof.
  assert (Hd : all_chars is_digit (pretty_N_go (N.pos p) "") = true)
    by by apply digits_pretty_N_go.
  split; [exact Hd |]. unfold Re.py_int_digits. rewrite (count_digits_all _ Hd).
  split; intros Hsize.
  - pose proof (pretty_N_go_length_le _ _ "" Hsize) as Hlen.
    rewrite Nat.add_0_r in Hlen. apply Nat.leb_le in Hlen as ->.
    destruct (digits_value_pretty_N_go (N.pos p)) as [k Hk]; [lia |].
    rewrite Hk. simpl. f_equal. lia.
  - pose proof (pretty_N_go_length_gt _ _ "" Hsize) as Hlen.
    rewrite Nat.add_0_r in Hlen. by apply Nat.leb_gt in Hlen as ->.
Qed.

Lemma pretty_Z_shape (n : Z) :
  truthy (pretty n) = true /\ strip (pretty n) = pretty n.
Proof.
  destruct n as [|p|p].
  - by vm_compute.
  - change (pretty (Z.pos p)) with (pretty (N.pos p)).
    unfold pretty, pretty_N. destruct (decide (N.pos p = 0)%N); [done |].
    split; [apply truthy_pretty_N_go; lia |].
    apply strip_by_none, digits_not_space. by apply digits_pretty_N_go.
  - change (pretty (Z.neg p)) with ("-" +:+ pretty (N.pos p)).
    split; [done |].
    apply strip_by_none. change ("-" +:+ pretty (N.pos p)) with (String "-" (pretty (N.pos p))).
    simpl. unfold pretty, pretty_N. destruct (decide (N.pos p = 0)%N); [done |].
    apply digits_not_space. by apply digits_pretty_N_go.
Qed.

Lemma digit_limit_Z :
  Z.of_N (10 ^ N.of_nat Re.max_str_digits) = 10 ^ 4300 /\ 0 < 10 ^ 4300.
Proof.
  split; [rewrite N2Z.inj_pow; reflexivity | by apply Z.pow_pos_nonneg].
Qed.

Lemma py_int_pretty (n : Z) :
  (Z.abs n < 10 ^ 4300 -> Re.py_int (pretty n) = Some n)
  /\ (10 ^ 4300 <= Z.abs n -> Re.py_int (pretty n) = None).
Proof.
  destruct digit_limit_Z as [Hlimit Hpos]. revert Hlimit Hpos.
  generalize (10 ^ 4300). intros limit Hlimit Hpos.
  destruct n as [|p|p].
  - split; [intros _; by vm_compute |]. intros Hbig. simpl in Hbig. lia.
  - change (pretty (Z.pos p)) with (pretty (N.pos p)).
    unfold pretty, pretty_N. destruct (decide (N.pos p = 0)%N); [done |].
    destruct (py_int_digits_pretty p) as (Hd & Hin & Hout).
    rewrite (proj1 (py_int_of_digits _ Hd)).
    change (Z.abs (Z.pos p)) with (Z.of_N (N.pos p)). revert Hin Hout Hlimit.
    generalize (10 ^ N.of_nat Re.max_str_digits)%N. intros limitN Hin Hout Hlimit.
    split; intros Hsize; [apply Hin | apply Hout]; lia.
  - change (pretty (Z.neg p)) with ("-" +:+ pretty (N.pos p)).
    unfold pretty, pretty_N. destruct (decide (N.pos p = 0)%N); [done |].
    destruct (py_int_digits_pretty p) as (Hd & Hin & Hout).
    rewrite (proj2 (py_int_of_digits _ Hd)).
    change (Z.abs (Z.neg p)) with (Z.of_N (N.pos p)). revert Hin Hout Hlimit.
    generalize (10 ^ N.of_nat Re.max_str_digits)%N. intros limitN Hin Hout Hlimit.
    split; intros Hsize; [rewrite Hin by lia | rewrite Hout by lia]; done.
Qed.

(** A character that no literal holds makes [int] raise. *)
Lemma digits_value_bad_char (c : ascii) (ds : string) :
  contains c ds = true -> is_digit c = false -> c <> "_"%char ->
  forall acc after_digit, Re.digits_value acc after_digit ds = None.
Proof.
  intros Hin Hc Hu. induction ds as [|x ds IH]; intros acc after_digit; [done |].
  simpl in Hin. apply orb_true_iff in Hin as [Hx | Hin].
  - apply Ascii.eqb_eq in Hx as <-. simpl. rewrite Hc.
    destruct (Ascii.eqb c "_") eqn:Heq; [apply Ascii.eqb_eq in Heq; done | done].
  - simpl. destruct (is_digit x); [by apply IH |].
    destruct (Ascii.eqb x "_" && after_digit)%bool; [| done].
    destruct ds as [|d ds']; [done |]. destruct (is_digit d); [by apply IH | done].
Qed.

Lemma py_int_bad_char (c : ascii) (s : string) :
  contains c s = true -> is_digit c = false ->
  c <> "_"%char -> c <> "-"%char -> c <> "+"%char ->
  strip_by Re.int_space s = s ->
  Re.py_int s = None.
Proof.
  intros Hin Hc Hu Hm Hp Hs. unfold Re.py_int. rewrite Hs.
  assert (Hbad : forall ds, contains c ds = true -> Re.py_int_digits ds = None).
  { intros ds Hds. unfold Re.py_int_digits.
    rewrite (digits_value_bad_char c ds Hds Hc Hu). by destruct (Nat.leb _ _). }
  assert (Hrest : forall x ds, contains c (String x ds) = true -> c <> x ->
                               contains c ds = true).
  { intros x ds Hx Hne. simpl in Hx. apply orb_true_iff in Hx as [Hx | Hx]; [| done].
    by apply Ascii.eqb_eq in Hx. }
  destruct s as [|x ds]; [done |].
  destruct (ascii_dec x "-") as [-> | Hnm].
  { by rewrite (Hbad ds (Hrest _ _ Hin Hm)). }
  destruct (ascii_dec x "+") as [-> | Hnp].
  { by rewrite (Hbad ds (Hrest _ _ Hin Hp)). }
  transitivity (Re.py_int_digits (String x ds)); [| by apply Hbad].
  destruct x as [[] [] [] [] [] [] [] []]; try reflexivity; done.
Qed.

(** X12: the depth the main program reads.  An integer written in
    decimal, with a minus sign when it is negative, is read as that integer
    when it has at most 4300 digits; with more digits [int] raises and the
    depth is the default 1.  White space around the input does not matter.
    The empty input gives 1, and so does an input that, stripped, holds a
    character other than a digit, an underscore or a sign. *)
Theorem read_max_depth_decimal :
  (forall n : Z, Z.abs n < 10 ^ 4300 -> read_max_depth (pretty n) = n)
  /\ (forall n : Z, 10 ^ 4300 <= Z.abs n -> read_max_depth (pretty n) = 1)
  /\ (forall input, read_max_depth (strip input) = read_max_depth input)
  /\ (forall input, strip input = "" -> read_max_depth input = 1)
  /\ (forall input c,
         contains c (strip input) = true -> is_digit c = false ->
         c <> "_"%char -> c <> "-"%char -> c <> "+"%char ->
         read_max_depth input = 1).
Proof.
  split; [| split; [| split; [| split]]].
  - intros n Hn. destruct (pretty_Z_shape n) as (Htruthy & Hstrip).
    unfold read_max_depth. cbv zeta.
    by rewrite Hstrip, Htruthy, (proj1 (py_int_pretty n) Hn).
  - intros n Hn. destruct (pretty_Z_shape n) as (Htruthy & Hstrip).
    unfold read_max_depth. cbv zeta.
    by rewrite Hstrip, Htruthy, (proj2 (py_int_pretty n) Hn).
  - intros input. unfold read_max_depth. cbv zeta. by rewrite strip_idem.
  - intros input Hempty. unfold read_max_depth. cbv zeta. by rewrite Hempty.
  - intros input c Hin Hc Hu Hm Hp. unfold read_max_depth. cbv zeta.
    rewrite (py_int_bad_char c (strip input)); try done.
    + by destruct (truthy (strip input)).
    + destruct (strip_by_fixed is_space input) as [Hl Hr]. fold (strip input) in Hl, Hr.
      unfold strip_by, rstrip_by.
      assert (Hsub : forall w, lstrip_by is_space w = w -> lstrip_by Re.int_space w = w).
      { intros [|x w]; [done |]. simpl. destruct (is_space x) eqn:Hx.
        - intros Heq. pose proof (lstrip_by_length is_space w) as Hlen.
          rewrite Heq in Hlen. simpl in Hlen. lia.
        - intros _. destruct (Re.int_space x) eqn:Hi; [| done].
          apply int_space_is_space in Hi. congruence. }
      rewrite (Hsub _ Hl), (Hsub _ Hr). apply rev_string_involutive.
Qed.

End DecimalDepth.

(** ** What the patterns match *)

Section Patterns.
Import PyStr UrlParse.

Lemma break_spec p (s a b : string) :
  break p s = (a, b) ->
  s = a +:+ b
  /\ all_chars (fun c => negb (p c)) a = true
  /\ (b = "" \/ exists c b', b = String c b' /\ p c = true).
Proof.
  revert a b. induction s as [|c s IH]; intros a b; simpl.
  - intros [= <- <-]. auto.
  - destruct (p c) eqn:Hc.
    + intros [= <- <-]. split; [done |]. split; [done |]. right. eauto.
    + destruct (break p s) as [a' b'] eqn:Hbreak. intros [= <- <-].
      destruct (IH a' b' eq_refl) as (-> & Ha & Hb).
      split; [done |]. split; [| done]. simpl. by rewrite Hc, Ha.
Qed.

Lemma prefix_drop_str (p s : string) :
  String.prefix p s = true -> s = p +:+ drop_str (String.length p) s.
Proof.
  revert s. induction p as [|c p IH]; intros s.
  - by destruct s.
  - destruct s as [|d s]; simpl; [done |].
    destruct (ascii_dec c d) as [-> | Hne]; [| done].
    intros Hp. rewrite string_app_cons. f_equal. by apply IH.
Qed.

Lemma elem_of_findall_from m (s : string) :
  forall skip g,
    g ∈ Re.findall_from m skip s ->
    exists before s' len, s = before +:+ s' /\ m s' = Some (g, len).
Proof.
  induction s as [|c s IH]; intros skip g; simpl; [intros Hg; inversion Hg |].
  assert (Hlater : forall k, g ∈ Re.findall_from m k s ->
            exists before s' len, String c s = before +:+ s' /\ m s' = Some (g, len)).
  { intros k Hg. destruct (IH k g Hg) as (before & s' & len & -> & Hm).
    exists (String c before), s', len. done. }
  destruct skip as [|k]; [| apply Hlater].
  destruct (m (String c s)) as [[g' len]|] eqn:Hm; [| apply Hlater].
  intros Hg. apply elem_of_cons in Hg as [-> | Hg]; [| by eapply Hlater].
  exists "", (String c s), len. done.
Qed.

Lemma match_http_spec (s g : string) (len : nat) :
  Re.match_http s = Some (g, len) ->
  exists rest after,
    (g = "http://" +:+ rest \/ g = "https://" +:+ rest)
    /\ rest <> "" /\ all_chars Re.url_char rest = true
    /\ s = g +:+ after
    /\ (after = "" \/ exists c after', after = String c after' /\ Re.url_char c = false).
Proof.
  unfold Re.match_http, startswith.
  destruct (String.prefix "http" s) eqn:Hhttp; [| done].
  apply prefix_drop_str in Hhttp. simpl String.length in Hhttp.
  set (r := drop_str 4 s) in *.
  assert (Hrun : forall pre rest,
             r = pre +:+ rest ->
             (if truthy (fst (Re.span Re.url_char rest))
              then Some ("http" +:+ pre +:+ fst (Re.span Re.url_char rest),
                         String.length ("http" +:+ pre +:+ fst (Re.span Re.url_char rest)))
              else None) = Some (g, len) ->
             exists run after,
               g = "http" +:+ pre +:+ run
               /\ run <> "" /\ all_chars Re.url_char run = true
               /\ s = g +:+ after
               /\ (after = ""
                   \/ exists c after', after = String c after' /\ Re.url_char c = false)).
  { intros pre rest Hr. unfold Re.span.
    destruct (break _ rest) as [run after] eqn:Hbreak.
    apply break_spec in Hbreak as (Hrest & Hchars & Hafter). simpl.
    destruct (truthy run) eqn:Hrun; [| done]. intros [= <- _].
    exists run, after. split; [done |]. split; [by apply truthy_true |]. split.
    - erewrite <- Hchars. clear. induction run as [|c run IH]; simpl; [done |].
      by rewrite negb_involutive, IH.
    - split.
      + rewrite Hhttp, Hr, Hrest, !string_app_assoc. done.
      + destruct Hafter as [-> | (c & after' & -> & Hc)]; [by left |].
        right. exists c, after'. split; [done |]. by apply negb_true_iff. }
  destruct (String.prefix "s://" r) eqn:Hs.
  - apply prefix_drop_str in Hs. simpl String.length in Hs.
    intros Hm. destruct (Hrun "s://" (drop_str 4 r) Hs Hm)
      as (run & after & -> & Hne & Hchars & Hs' & Hafter).
    exists run, after. split; [by right | done].
  - destruct (String.prefix "://" r) eqn:Hc; [| done].
    apply prefix_drop_str in Hc. simpl String.length in Hc.
    intros Hm. destruct (Hrun "://" (drop_str 3 r) Hc Hm)
      as (run & after & -> & Hne & Hchars & Hs' & Hafter).
    exists run, after. split; [by left | done].
Qed.

Lemma match_css_spec (s g : string) (len : nat) :
  Re.match_css s = Some (g, len) ->
  exists after,
    g <> "" /\ all_chars Re.not_rparen g = true
    /\ s = "url(" +:+ g +:+ ")" +:+ after.
Proof.
  unfold Re.match_css, startswith.
  destruct (String.prefix "url(" s) eqn:Hurl; [| done].
  apply prefix_drop_str in Hurl. simpl String.length in Hurl.
  unfold Re.span. destruct (break _ (drop_str 4 s)) as [run after] eqn:Hbreak.
  apply break_spec in Hbreak as (Hrest & Hchars & Hafter).
  destruct after as [|c after]; [done |].
  destruct (truthy run) eqn:Hrun; [| done]. intros [= <- _].
  destruct Hafter as [? | (c' & after' & [= <- <-] & Hc)]; [done |].
  exists after. split; [by apply truthy_true |]. split.
  - erewrite <- Hchars. clear. induction run as [|d run IH]; simpl; [done |].
    by rewrite negb_involutive, IH.
  - unfold Re.not_rparen in Hc. apply negb_true_iff, negb_false_iff in Hc.
    apply Ascii.eqb_eq in Hc as ->. rewrite Hurl, Hrest at 1. done.
Qed.

(** X13: what the two raw-text patterns of the extractors find.  A match
    of the URL pattern is a piece of the text that starts with [http://] or
    [https://], goes on with at least one character, holds no white space,
    quote or angle bracket after the scheme, and ends where the text ends or
    such a character stands.  A match of the CSS pattern is a non-empty piece
    of the text without a closing bracket that stands between [url(] and
    [)]. *)
Theorem raw_text_matches (html_content m : string) :
  (m ∈ Re.findall_http html_content ->
   exists rest before after,
     (m = "http://" +:+ rest \/ m = "https://" +:+ rest)
     /\ rest <> "" /\ all_chars Re.url_char rest = true
     /\ html_content = before +:+ m +:+ after
     /\ (after = ""
         \/ exists c after', after = String c after' /\ Re.url_char c = false))
  /\ (m ∈ Re.findall_css html_content ->
      exists before after,
        m <> "" /\ all_chars Re.not_rparen m = true
        /\ html_content = before +:+ "url(" +:+ m +:+ ")" +:+ after).
Proof.
  split; intros Hm.
  - apply elem_of_findall_from in Hm as (before & s' & len & -> & Hm).
    apply match_http_spec in Hm as (rest & after & Hshape & Hne & Hchars & -> & Hafter).
    exists rest, before, after. done.
  - apply elem_of_findall_from in Hm as (before & s' & len & -> & Hm).
    apply match_css_spec in Hm as (after & Hne & Hchars & ->).
    exists before, after. done.
Qed.

End Patterns.

(** ** Pages *)

Section Pages.
Context `{PyLib} `{World}.
Import PyStr UrlParse.

Lemma title_of_stripped (soup : Soup) :
  title_of soup = strip (default "" (soup_title soup ≫= tag_string))
  /\ strip (title_of soup) = title_of soup.
Proof.
  assert (Htitle : title_of soup = strip (default "" (soup_title soup ≫= tag_string))).
  { unfold title_of. destruct (soup_title soup) as [t|]; [| done]. simpl.
    destruct (tag_string t) as [s|]; [| done]. simpl. by destruct s. }
  split; [exact Htitle |]. rewrite Htitle. apply strip_idem.
Qed.

Lemma elem_of_images_of (soup : Soup) (url : string) (img : string * string) :
  img ∈ images_of soup url
  <-> exists tag src,
        tag ∈ soup_tags soup /\ tag_name tag = "img"
        /\ tag_attrs tag !! "src" = Some src
        /\ img = (urljoin url src, strip (default "" (tag_attrs tag !! "alt"))).
Proof.
  unfold images_of. rewrite list_elem_of_omap. split.
  - intros (tag & Htag & Himg).
    destruct (String.eqb (tag_name tag) "img") eqn:Hname; [| done].
    apply String.eqb_eq in Hname.
    destruct (tag_attrs tag !! "src") as [src|] eqn:Hsrc; [| done].
    injection Himg as <-. by exists tag, src.
  - intros (tag & src & Htag & Hname & Hsrc & ->). exists tag. split; [done |].
    by rewrite Hname, Hsrc.
Qed.

(** The page built from the text [content] that was fetched for [url]. *)
Lemma page_fields content url links :
  let soup := parse_html content in
  let page_data :=
    mkPage url (title_of soup) (soup_text soup) (images_of soup url) links in
  page_url page_data = url
  /\ page_title page_data = strip (default "" (soup_title soup ≫= tag_string))
  /\ strip (page_title page_data) = page_title page_data
  /\ (forall img,
         img ∈ page_images page_data
         <-> exists tag src,
               tag ∈ soup_tags soup /\ tag_name tag = "img"
               /\ tag_attrs tag !! "src" = Some src
               /\ img = (urljoin url src,
                         strip (default "" (tag_attrs tag !! "alt"))))
  /\ (forall img, img ∈ page_images page_data -> strip (snd img) = snd img).
Proof.
  intros soup page_data. destruct (title_of_stripped soup) as [Htitle Hstripped].
  split; [done |]. split; [exact Htitle |]. split; [exact Hstripped |].
  split; [intros img; apply elem_of_images_of |].
  intros img Himg. apply elem_of_images_of in Himg as (tag & src & _ & _ & _ & ->).
  apply strip_idem.
Qed.

(** X11: what a scraped page holds, in both programs.  It was built from
    the text of the local file, or from the text of a GET response with
    status 200.  Its URL is the URL that was asked for.  Its title is the
    stripped string of the first [title] tag, empty when there is none, and
    has no white space around it.  Its images are exactly the [img] tags
    that have a [src] attribute: the URL of an image is that attribute
    resolved against the URL of the page and its alternative text is the
    stripped [alt] attribute, empty when there is none. *)
Theorem scraped_page_fields url page_data :
  WBSLSCv4.scrape_page url = Some page_data
  \/ brokenScraper.scrape_page url = Some page_data ->
  exists content,
    ((startswith url "file://" = true
      /\ path_exists (url2pathname (path (urlparse url))) = true
      /\ read_file (url2pathname (path (urlparse url))) = Some content)
     \/ (startswith url "file://" = false
         /\ http_get url = Some (200, content)))
    /\ page_url page_data = url
    /\ page_title page_data
       = strip (default "" (soup_title (parse_html content) ≫= tag_string))
    /\ strip (page_title page_data) = page_title page_data
    /\ (forall img,
           img ∈ page_images page_data
           <-> exists tag src,
                 tag ∈ soup_tags (parse_html content) /\ tag_name tag = "img"
                 /\ tag_attrs tag !! "src" = Some src
                 /\ img = (urljoin url src,
                           strip (default "" (tag_attrs tag !! "alt"))))
    /\ (forall img, img ∈ page_images page_data -> strip (snd img) = snd img).
Proof.
  assert (Hfetch : forall fetched : option string,
             fetched
             = (if startswith url "file://"
                then if negb (path_exists (url2pathname (path (urlparse url))))
                     then None
                     else read_file (url2pathname (path (urlparse url)))
                else match http_get url with
                     | Some (status_code, text) =>
                         if negb (status_code =? 200) then None else Some text
                     | None => None
                     end) ->
             forall content, fetched = Some content ->
             (startswith url "file://" = true
              /\ path_exists (url2pathname (path (urlparse url))) = true
              /\ read_file (url2pathname (path (urlparse url))) = Some content)
             \/ (startswith url "file://" = false
                 /\ http_get url = Some (200, content))).
  { intros fetched -> content. destruct (startswith url "file://").
    - destruct (path_exists _); simpl; [| done]. intros Hread. by left.
    - destruct (http_get url) as [[code text]|]; [| done].
      destruct (code =? 200) eqn:Hcode; simpl; [| done].
      apply Z.eqb_eq in Hcode as ->. intros [= ->]. by right. }
  intros [Hpage | Hpage].
  - unfold WBSLSCv4.scrape_page in Hpage. cbv zeta in Hpage.
    destruct (if startswith url "file://" then _ else _) as [content|] eqn:Hcontent;
      [| done].
    injection Hpage as <-. exists content.
    split; [by eapply Hfetch |]. apply page_fields.
  - unfold brokenScraper.scrape_page in Hpage. cbv zeta in Hpage.
    destruct (if startswith url "file://" then _ else _) as [content|] eqn:Hcontent;
      [| done].
    injection Hpage as <-. exists content.
    split; [by eapply Hfetch |]. apply page_fields.
Qed.

(** X14: on a network page of the base domain the host test of the tree
    builder rejects nothing but [file://] links: the extractor has already
    dropped every other link that is not on the host of the page, so every
    link of the page that does not start with [file://] is followed. *)
Theorem network_links_all_followed url base_domain page_data link :
  WBSLSCv4.scrape_page url = Some page_data ->
  startswith url "file://" = false ->
  netloc (urlparse url) = base_domain ->
  link ∈ page_links page_data ->
  startswith link "file://" = false ->
  WBSLSCv4.follows url base_domain link = true
  /\ WBSLSCv4.is_valid link = true.
Proof.
  intros Hpage Hnet Hhost Hlink Hnotfile.
  unfold WBSLSCv4.scrape_page in Hpage. cbv zeta in Hpage.
  destruct (if startswith url "file://" then _ else _) as [content|]; [| done].
  injection Hpage as <-. simpl in Hlink.
  rewrite tree_get_all_links_union in Hlink.
  unfold Extract.spec_extract in Hlink. cbv zeta in Hlink.
  assert (Hscope : Extract.in_scope url link = true).
  { rewrite !elem_of_union, !elem_of_resolved in Hlink.
    destruct Hlink as [[[Hc | Hc] | Hc] | Hc]; by destruct Hc as (c & _ & _ & ?). }
  unfold Extract.in_scope in Hscope. rewrite Hnotfile in Hscope. simpl in Hscope.
  apply andb_true_iff in Hscope as [Hvalid Heq].
  split; [| done]. unfold WBSLSCv4.follows. rewrite Hnet, <- Hhost. done.
Qed.

End Pages.

(** ** The further properties on the two sites *)

Lemma fixture_tree :
  exists t st',
    WBSLSCv4.build_tree "http://h/" "h" 2 (WBSLSCv4.mkCrawl ∅ []) = Some (Some t, st').
Proof. eexists _, _. vm_compute. reflexivity. Defined.

Lemma tree_height_bounded_witness :
  exists t st',
    WBSLSCv4.build_tree "http://h/" "h" 2 (WBSLSCv4.mkCrawl ∅ []) = Some (Some t, st')
    /\ (WBSLSCv4_main.height t <= Z.to_nat 2)%nat.
Proof.
  destruct fixture_tree as (t & st' & Hrun). exists t, st'. split; [exact Hrun |].
  exact (proj1 (tree_height_bounded "http://h/" "h" 2 (WBSLSCv4.mkCrawl ∅ []) t st' Hrun)).
Defined.

Lemma tree_nodes_mirror_pages_witness :
  exists t st',
    WBSLSCv4.build_tree "http://h/" "h" 2 (WBSLSCv4.mkCrawl ∅ []) = Some (Some t, st')
    /\ forall n, n ∈ WBSLSCv4.nodes t ->
         exists page_data,
           WBSLSCv4.scrape_page (WBSLSCv4.node_url n) = Some page_data
           /\ WBSLSCv4.node_title n = page_title page_data.
Proof.
  destruct fixture_tree as (t & st' & Hrun). exists t, st'. split; [exact Hrun |].
  intros n Hn.
  destruct (tree_nodes_mirror_pages "http://h/" "h" 2 (WBSLSCv4.mkCrawl ∅ []) t st'
              Hrun n Hn) as (page_data & Hpage & Htitle & _).
  exists page_data. split; [exact Hpage | exact Htitle].
Defined.

Lemma tree_urls_distinct_witness :
  exists t st',
    WBSLSCv4.build_tree "http://h/" "h" 2 (WBSLSCv4.mkCrawl ∅ []) = Some (Some t, st')
    /\ NoDup (WBSLSCv4.node_url <$> WBSLSCv4.nodes t).
Proof.
  destruct fixture_tree as (t & st' & Hrun). exists t, st'. split; [exact Hrun |].
  exact (proj1 (tree_urls_distinct "http://h/" "h" 2 (WBSLSCv4.mkCrawl ∅ []) t st' Hrun)).
Defined.

Lemma head_requests_of_seed_witness :
  exists page_data,
    brokenScraper.scrape_page "http://s/" = Some page_data
    /\ size (page_links page_data) = 3%nat
    /\ length (snd (brokenScraper.process_input_url "http://s/"))
       = (2 + size (page_links page_data))%nat.
Proof.
  assert (Hpage : exists page_data,
             brokenScraper.scrape_page "http://s/" = Some page_data
             /\ size (page_links page_data) = 3%nat).
  { eexists. split; vm_compute; reflexivity. }
  destruct Hpage as (page_data & Hpage & Hsize). exists page_data.
  split; [exact Hpage |]. split; [exact Hsize |].
  destruct (head_requests_of_seed "http://s/" page_data Hpage) as (order & _ & _ & _ & Hlen).
  exact Hlen.
Defined.

Lemma self_link_reported_twice_witness :
  exists page_data before after,
    @brokenScraper.scrape_page Fixture.lib self_linking_site "http://h/" = Some page_data
    /\ "http://h/" ∈ page_links page_data
    /\ @http_head self_linking_site "http://h/" = inl 404
    /\ 404 ∈ brokenScraper.ERROR_CODES
    /\ fst (@brokenScraper.process_input_url Fixture.lib self_linking_site "http://h/")
       = brokenScraper.mkRecord "http://h/" "http://h/" 404 ("Status " +:+ pretty 404)
         :: before
         ++ brokenScraper.mkRecord "http://h/" "http://h/" 404 ("Status " +:+ pretty 404)
         :: after.
Proof.
  assert (Hpage : exists page_data,
             @brokenScraper.scrape_page Fixture.lib self_linking_site "http://h/"
             = Some page_data
             /\ "http://h/" ∈ page_links page_data).
  { eexists. split; [vm_compute; reflexivity | by_evaluation]. }
  destruct Hpage as (page_data & Hpage & Hself).
  assert (Hhead : @http_head self_linking_site "http://h/" = inl 404) by reflexivity.
  assert (Hcode : 404 ∈ brokenScraper.ERROR_CODES) by (by apply elem_of_singleton).
  destruct (@self_link_reported_twice Fixture.lib self_linking_site
              "http://h/" page_data 404 Hpage Hself Hhead Hcode)
    as (before & after & Hrecords & _).
  exists page_data, before, after.
  split; [exact Hpage |]. split; [exact Hself |]. split; [exact Hhead |].
  split; [exact Hcode | exact Hrecords].
Defined.

Lemma scraped_page_fields_witness :
  exists page_data,
    (@WBSLSCv4.scrape_page gallery_lib gallery_site "http://g/dir/" = Some page_data
     \/ @brokenScraper.scrape_page gallery_lib gallery_site "http://g/dir/"
        = Some page_data)
    /\ page_title page_data = "Gallery"
    /\ page_images page_data = [("http://g/dir/pic/a.png", "logo")]
    /\ PyStr.strip (page_title page_data) = page_title page_data
    /\ (forall img, img ∈ page_images page_data ->
                    PyStr.strip (snd img) = snd img).
Proof.
  assert (Hpage : exists page_data,
             @WBSLSCv4.scrape_page gallery_lib gallery_site "http://g/dir/"
             = Some page_data
             /\ page_title page_data = "Gallery"
             /\ page_images page_data = [("http://g/dir/pic/a.png", "logo")]).
  { eexists. repeat split; vm_compute; reflexivity. }
  destruct Hpage as (page_data & Hpage & Htitle & Himages). exists page_data.
  split; [left; exact Hpage |]. split; [exact Htitle |]. split; [exact Himages |].
  destruct (@scraped_page_fields gallery_lib gallery_site "http://g/dir/" page_data
              (or_introl Hpage)) as (content & _ & _ & _ & Hstripped & _ & Halt).
  split; [exact Hstripped | exact Halt].
Defined.

Lemma network_links_all_followed_witness :
  exists page_data,
    WBSLSCv4.scrape_page "http://h/" = Some page_data
    /\ PyStr.startswith "http://h/" "file://" = false
    /\ UrlParse.netloc (UrlParse.urlparse "http://h/") = "h"
    /\ "http://h/b" ∈ page_links page_data
    /\ PyStr.startswith "http://h/b" "file://" = false
    /\ WBSLSCv4.follows "http://h/" "h" "http://h/b" = true.
Proof.
  assert (Hpage : exists page_data,
             WBSLSCv4.scrape_page "http://h/" = Some page_data
             /\ "http://h/b" ∈ page_links page_data).
  { eexists. split; [vm_compute; reflexivity | by_evaluation]. }
  destruct Hpage as (page_data & Hpage & Hlink). exists page_data.
  assert (Hhost : UrlParse.netloc (UrlParse.urlparse "http://h/") = "h")
    by (vm_compute; reflexivity).
  split; [exact Hpage |]. split; [reflexivity |]. split; [exact Hhost |].
  split; [exact Hlink |]. split; [reflexivity |].
  exact (proj1 (network_links_all_followed "http://h/" "h" page_data "http://h/b"
                  Hpage eq_refl Hhost Hlink eq_refl)).
Defined.

(** ** The library model on characters above 127 and on long literals *)

Example white_space_above_127 :
  PyStr.strip (String "160" ("a" +:+ String "133" "")) = "a"
  /\ Re.findall_http ("http://h/a" +:+ String "160" "b") = ["http://h/a"]
  /\ brokenScraper_main.urls_from_lines [String "160" ""; " http://s/ "] = ["http://s/"]
  /\ Re.py_int (String "160" "3") = Some 3
  /\ Re.py_int (String "028" "3") = None
  /\ PyStr.lower (String "201" "A") = String "233" "a".
Proof. vm_compute. repeat split. Qed.

Example int_digit_limit :
  is_Some (Re.py_int (string_of_list_ascii (List.repeat "1"%char 4300)))
  /\ Re.py_int (string_of_list_ascii (List.repeat "1"%char 4301)) = None
  /\ Re.py_int (string_of_list_ascii (List.repeat "0"%char 4301)) = None
  /\ WBSLSCv4.read_max_depth
       (String "-" (string_of_list_ascii (List.repeat "1"%char 4301))) = 1.
Proof.
  split; [by_evaluation | vm_compute; repeat split].
Qed.
